(** * Outline extraction from PDF text geometry: model of [final.py]

    The development embeds the block segmentation and structural
    classification pipeline of [final.py] and proves properties of it.

    Modelling conventions.
    - Python floats (font sizes, coordinates, the margin fraction) are exact
      rationals [Q]; the comparisons [==], [<], [<=], [>=] of the source are
      [Qeq_bool] and [Qle_bool].  Rounding and NaN are outside the model.
    - Python [str] values are [string]s of ASCII characters; [strip],
      [lower], [upper], [endswith], [startswith], [in] and [int] are given
      for that alphabet.
    - A Python dict with string keys holding a block is a record.
    - [id(b)] of a block held in a list of distinct objects is its position
      in that list.
    - The two external collaborators (table detection, OCR) are parameters. *)

From Stdlib Require Import QArith ZArith Lia Lqa Bool Ascii String DecimalString DecimalNat.
From stdpp Require Import gmap strings list sorting.

Local Open Scope string_scope.
Local Open Scope list_scope.
Local Open Scope Q_scope.

(** ** Python builtins used by the source *)

Module Py.

(** [x < y] on floats. *)
Definition Qltb (x y : Q) : bool := negb (Qle_bool y x).

(** [min(first, *rest)]: the running minimum is replaced only by a strictly
    smaller item. *)
Definition min_of (first : Q) (rest : list Q) : Q :=
  fold_left (fun m x => if Qltb x m then x else m) rest first.

(** [max(first, *rest)]. *)
Definition max_of (first : Q) (rest : list Q) : Q :=
  fold_left (fun m x => if Qltb m x then x else m) rest first.

Definition Qsum (l : list Q) : Q := fold_left Qplus l 0.

(** [np.mean(l)] on a non-empty list. *)
Definition np_mean (l : list Q) : Q := Qsum l / inject_Z (Z.of_nat (length l)).

(** Characters removed by [str.strip()]: TAB, LF, VT, FF, CR, FS, GS, RS, US
    and the space. *)
Definition is_space (c : ascii) : bool :=
  let n := nat_of_ascii c in
  ((9 <=? n) && (n <=? 13) || (28 <=? n) && (n <=? 32))%nat.

Fixpoint lstrip (s : string) : string :=
  match s with
  | "" => ""
  | String c r => if is_space c then lstrip r else s
  end.

Fixpoint rstrip (s : string) : string :=
  match s with
  | "" => ""
  | String c r =>
      match rstrip r with
      | "" => if is_space c then "" else String c ""
      | r' => String c r'
      end
  end.

Definition strip (s : string) : string := lstrip (rstrip s).

Definition lower_char (c : ascii) : ascii :=
  let n := nat_of_ascii c in
  if ((65 <=? n) && (n <=? 90))%nat then ascii_of_nat (n + 32) else c.

Definition upper_char (c : ascii) : ascii :=
  let n := nat_of_ascii c in
  if ((97 <=? n) && (n <=? 122))%nat then ascii_of_nat (n - 32) else c.

Fixpoint lower (s : string) : string :=
  match s with
  | "" => ""
  | String c r => String (lower_char c) (lower r)
  end.

Fixpoint upper (s : string) : string :=
  match s with
  | "" => ""
  | String c r => String (upper_char c) (upper r)
  end.

(** [s.startswith(p)]. *)
Fixpoint startswith (s p : string) : bool :=
  match p, s with
  | "", _ => true
  | String _ _, "" => false
  | String a p', String b s' => Ascii.eqb a b && startswith s' p'
  end.

(** [s.endswith(suf)]: some suffix of [s] is [suf]. *)
Fixpoint endswith (s suf : string) : bool :=
  String.eqb s suf ||
  match s with
  | "" => false
  | String _ r => endswith r suf
  end.

(** [w in s]: [w] is a prefix of some suffix of [s]. *)
Fixpoint contains (s w : string) : bool :=
  startswith s w ||
  match s with
  | "" => false
  | String _ r => contains r w
  end.

(** [s[-2]] for [len(s) >= 2]. *)
Definition second_last (s : string) : option ascii :=
  String.get (String.length s - 2) s.

Definition digit_val (c : ascii) : option Z :=
  let n := nat_of_ascii c in
  if ((48 <=? n) && (n <=? 57))%nat then Some (Z.of_nat (n - 48)) else None.

(** Decimal digits with single underscores allowed between digits. *)
Fixpoint int_digits (acc : Z) (after_digit : bool) (s : string) : option Z :=
  match s with
  | "" => if after_digit then Some acc else None
  | String c r =>
      match digit_val c with
      | Some d => int_digits (acc * 10 + d)%Z true r
      | None =>
          if Ascii.eqb c "_" && after_digit then int_digits acc false r
          else None
      end
  end.

(** [int(s)] in base ten; [None] stands for [ValueError]. *)
Definition int (s : string) : option Z :=
  match strip s with
  | String "+" r => int_digits 0 false r
  | String "-" r => Z.opp <$> int_digits 0 false r
  | t => int_digits 0 false t
  end.

(** [str(n)] for a natural number. *)
Definition str_of_nat (n : nat) : string :=
  NilEmpty.string_of_uint (Nat.to_uint n).

(** Stable sort with the strict order [lt] on items, as [list.sort] and
    [sorted] perform it: an item is placed after the items that are not
    greater and before those that are. *)
Section Sort.
Context {A : Type} (lt : A -> A -> bool).

Fixpoint insert_sorted (x : A) (l : list A) : list A :=
  match l with
  | [] => [x]
  | y :: l' => if lt y x then y :: insert_sorted x l' else x :: l
  end.

Definition sorted (l : list A) : list A := foldr insert_sorted [] l.
End Sort.

End Py.

(** ** Data model *)

(** A bounding box [(x0, y0, x1, y1)]. *)
Record BBox := mkBBox { bx0 : Q; by0 : Q; bx1 : Q; by1 : Q }.

(** A span of one line as delivered by [page.get_text("dict")]. *)
Record Span := mkSpan {
  s_text : string;
  s_font : string;
  s_size : Q;
  s_flags : Z;
  s_bbox : BBox
}.

(** A merged text block. *)
Record Block := mkBlock {
  b_text : string;
  b_font : string;
  b_size : Q;
  b_flags : Z;
  b_bbox : BBox;
  b_page : nat;
  b_page_height : Q;
  b_page_width : Q
}.

(** An entry of the outline. *)
Record Heading := mkHeading {
  h_level : string;
  h_text : string;
  h_page : nat;
  h_ocr_text : string
}.

(** The accumulator [current] of the span loop of [parse_pdf]; its list of
    boxes is never empty. *)
Record Current := mkCurrent {
  c_text : string;
  c_font : string;
  c_size : Q;
  c_flags : Z;
  c_bbox0 : BBox;
  c_bboxes : list BBox
}.

(** A raw block of a page and a page of the document. *)
Record RawBlock := mkRawBlock { rb_type : Z; rb_lines : list (list Span) }.
Record Page := mkPage { pg_height : Q; pg_width : Q; pg_blocks : list RawBlock }.

(** ** Boxes *)

(** [merge_bboxes] on the non-empty list [first :: rest]; the source raises
    on an empty list and no call passes one. *)
Definition merge_bboxes (first : BBox) (rest : list BBox) : BBox :=
  {| bx0 := Py.min_of (bx0 first) (map bx0 rest);
     by0 := Py.min_of (by0 first) (map by0 rest);
     bx1 := Py.max_of (bx1 first) (map bx1 rest);
     by1 := Py.max_of (by1 first) (map by1 rest) |}.

Definition bbox_intersect (b1 b2 : BBox) : bool :=
  negb (Py.Qltb (bx1 b1) (bx0 b2) || Py.Qltb (bx1 b2) (bx0 b1)
        || Py.Qltb (by1 b1) (by0 b2) || Py.Qltb (by1 b2) (by0 b1)).

Fixpoint bbox_in_any (bbox : BBox) (bbox_list : list BBox) : bool :=
  match bbox_list with
  | [] => false
  | b :: rest => if bbox_intersect bbox b then true else bbox_in_any bbox rest
  end.

Definition block_in_tables (page_num : nat) (bbox : BBox)
    (tables_bbox : gmap nat (list BBox)) : bool :=
  match tables_bbox !! page_num with
  | Some bbox_list => bbox_in_any bbox bbox_list
  | None => false
  end.

(** [get_tables_bboxes]: every page index is registered with an empty list. *)
Definition get_tables_bboxes (doc : list Page) : gmap nat (list BBox) :=
  list_to_map (map (fun page_num => (page_num, [])) (seq 0 (length doc))).

(** ** Block merger *)

(** The test of the [if] in [merge_consecutive_blocks]. *)
Definition same_page_style (block current : Block) : bool :=
  Nat.eqb (b_page block) (b_page current)
  && String.eqb (b_font block) (b_font current)
  && Qeq_bool (b_size block) (b_size current)
  && Z.eqb (b_flags block) (b_flags current).

(** The two assignments of the merging branch. *)
Definition absorb (current block : Block) : Block :=
  {| b_text := b_text current +:+ " " +:+ b_text block;
     b_font := b_font current;
     b_size := b_size current;
     b_flags := b_flags current;
     b_bbox := merge_bboxes (b_bbox current) [b_bbox block];
     b_page := b_page current;
     b_page_height := b_page_height current;
     b_page_width := b_page_width current |}.

Fixpoint merge_loop (merged : list Block) (current : Block)
    (blocks : list Block) : list Block :=
  match blocks with
  | [] => merged ++ [current]
  | block :: rest =>
      if same_page_style block current
      then merge_loop merged (absorb current block) rest
      else merge_loop (merged ++ [current]) block rest
  end.

Definition merge_consecutive_blocks (blocks : list Block) : list Block :=
  match blocks with
  | [] => []
  | first :: rest => merge_loop [] first rest
  end.

(** ** Run merger: the span loop of [parse_pdf] *)

Definition new_current (text : string) (span : Span) : Current :=
  {| c_text := text; c_font := s_font span; c_size := s_size span;
     c_flags := s_flags span; c_bbox0 := s_bbox span; c_bboxes := [] |}.

(** The two statements of the merging branch: the text grows by a space and
    the trimmed text, the box is appended. *)
Definition extend_current (current : Current) (text : string) (span : Span)
    : Current :=
  {| c_text := c_text current +:+ " " +:+ text; c_font := c_font current;
     c_size := c_size current; c_flags := c_flags current;
     c_bbox0 := c_bbox0 current;
     c_bboxes := c_bboxes current ++ [s_bbox span] |}.

(** The dict appended to [page_blocks] when [current] is flushed. *)
Definition flush_current (page_num : nat) (height width : Q)
    (current : Current) : Block :=
  {| b_text := c_text current; b_font := c_font current;
     b_size := c_size current; b_flags := c_flags current;
     b_bbox := merge_bboxes (c_bbox0 current) (c_bboxes current);
     b_page := page_num; b_page_height := height; b_page_width := width |}.

Definition same_run_style (span : Span) (current : Current) : bool :=
  String.eqb (s_font span) (c_font current)
  && Qeq_bool (s_size span) (c_size current)
  && Z.eqb (s_flags span) (c_flags current).

Fixpoint span_loop (page_num : nat) (height width : Q)
    (page_blocks : list Block) (current : option Current)
    (spans : list Span) : list Block * option Current :=
  match spans with
  | [] => (page_blocks, current)
  | span :: rest =>
      let text := Py.strip (s_text span) in
      if String.eqb text "" then
        span_loop page_num height width page_blocks current rest
      else
        match current with
        | None =>
            span_loop page_num height width page_blocks
              (Some (new_current text span)) rest
        | Some cur =>
            if same_run_style span cur then
              span_loop page_num height width page_blocks
                (Some (extend_current cur text span)) rest
            else
              span_loop page_num height width
                (page_blocks ++ [flush_current page_num height width cur])
                (Some (new_current text span)) rest
        end
  end.

(** One iteration of [for line in block["lines"]]. *)
Definition merge_line (page_num : nat) (height width : Q)
    (page_blocks : list Block) (spans : list Span) : list Block :=
  match span_loop page_num height width page_blocks None spans with
  | (page_blocks', Some cur) =>
      page_blocks' ++ [flush_current page_num height width cur]
  | (page_blocks', None) => page_blocks'
  end.

Definition merge_raw_block (page_num : nat) (height width : Q)
    (page_blocks : list Block) (block : RawBlock) : list Block :=
  if negb (Z.eqb (rb_type block) 0) then page_blocks
  else fold_left (merge_line page_num height width) (rb_lines block) page_blocks.

Definition top_edge_lt (a b : Block) : bool :=
  Py.Qltb (by0 (b_bbox a)) (by0 (b_bbox b)).

Definition parse_page (page_num : nat) (page : Page) : list Block :=
  let page_blocks :=
    fold_left (merge_raw_block page_num (pg_height page) (pg_width page))
              (pg_blocks page) [] in
  merge_consecutive_blocks (Py.sorted top_edge_lt page_blocks).

Fixpoint parse_pages (page_num : nat) (all_blocks : list Block)
    (pages : list Page) : list Block :=
  match pages with
  | [] => all_blocks
  | page :: rest =>
      parse_pages (S page_num) (all_blocks ++ parse_page page_num page) rest
  end.

Definition parse_pdf (doc : list Page) : list Block := parse_pages 0 [] doc.

(** ** Noise filter *)

Definition header_test (margin : Q) (b : Block) : bool :=
  Qle_bool (by1 (b_bbox b)) (b_page_height b * margin).

Definition footer_test (margin : Q) (b : Block) : bool :=
  Qle_bool (b_page_height b * (1 - margin)) (by0 (b_bbox b)).

(** The loop of [remove_headers_footers]; [idx] is the identity of the block
    visited. *)
Fixpoint headers_footers_loop (margin : Q) (idx : nat) (blocks : list Block)
    (headers footers : gset nat) : gset nat * gset nat :=
  match blocks with
  | [] => (headers, footers)
  | b :: rest =>
      if header_test margin b then
        headers_footers_loop margin (S idx) rest ({[idx]} ∪ headers) footers
      else if footer_test margin b then
        headers_footers_loop margin (S idx) rest headers ({[idx]} ∪ footers)
      else headers_footers_loop margin (S idx) rest headers footers
  end.

Definition remove_headers_footers (blocks : list Block) (margin : Q)
    : gset nat * gset nat :=
  headers_footers_loop margin 0 blocks ∅ ∅.

(** The comprehension building [filtered_blocks] in [main]. *)
Fixpoint filter_blocks (idx : nat) (blocks : list Block)
    (combined_blocks : gset nat) (tables : gmap nat (list BBox)) : list Block :=
  match blocks with
  | [] => []
  | b :: rest =>
      if bool_decide (idx ∉ combined_blocks)
         && negb (block_in_tables (b_page b) (b_bbox b) tables)
      then b :: filter_blocks (S idx) rest combined_blocks tables
      else filter_blocks (S idx) rest combined_blocks tables
  end.

(** ** Heading helpers *)

Definition ends_with_single_dot (text : string) : bool :=
  let t := Py.strip text in
  if Py.endswith t "." && negb (Py.endswith t "...") then
    if (2 <=? String.length t)%nat then
      match Py.second_last t with
      | Some c => negb (Ascii.eqb c ".")
      | None => false
      end
    else true
  else false.

Definition heading_level_number (level_str : string) : option Z :=
  if Py.startswith (Py.upper level_str) "H" then
    match level_str with
    | "" => Py.int ""
    | String _ rest => Py.int rest
    end
  else None.

(** [set(...)]: one representative of each value, the first met. *)
Definition set_add (x : Q) (s : list Q) : list Q :=
  if existsb (Qeq_bool x) s then s else s ++ [x].

Definition set_of (l : list Q) : list Q :=
  fold_left (fun s x => set_add x s) l [].

(** A dict keyed by sizes: [d[k] = v] and [d.get(k)]. *)
Fixpoint dict_set (k : Q) (v : string) (d : list (Q * string))
    : list (Q * string) :=
  match d with
  | [] => [(k, v)]
  | (k', v') :: rest =>
      if Qeq_bool k' k then (k', v) :: rest else (k', v') :: dict_set k v rest
  end.

Fixpoint dict_get (k : Q) (d : list (Q * string)) : option string :=
  match d with
  | [] => None
  | (k', v') :: rest => if Qeq_bool k' k then Some v' else dict_get k rest
  end.

Definition level_label (i : nat) : string := "H" +:+ Py.str_of_nat (i + 1).

Fixpoint cluster_loop (i : nat) (sizes : list Q) (d : list (Q * string))
    : list (Q * string) :=
  match sizes with
  | [] => d
  | size :: rest => cluster_loop (S i) rest (dict_set size (level_label i) d)
  end.

(** The first line of [cluster_font_sizes]. *)
Definition cluster_sizes (candidates : list Block) : list Q :=
  Py.sorted (fun a b => Py.Qltb b a) (set_of (map b_size candidates)).

Definition cluster_font_sizes (candidates : list Block) : list (Q * string) :=
  cluster_loop 0 (cluster_sizes candidates) [].

(** ** Title selector and heading classifier *)

(** The value of [a if a else b] on strings. *)
Definition or_else (a b : string) : string :=
  match a with "" => b | _ => a end.

(** The output record written to [output.json]. *)
Record OutlineEntry := mkEntry { e_level : string; e_text : string; e_page : nat }.
Record Output := mkOutput { o_title : string; o_outline : list OutlineEntry }.

Definition blacklist : list string := ["page"; "draft"; "confidential"].

(** The condition of the comprehension in [extract_title]. *)
Definition title_candidate (b : Block) : bool :=
  (Nat.eqb (b_page b) 0 || Nat.eqb (b_page b) 1)
  && (5 <? String.length (b_text b))%nat
  && negb (existsb (fun word => Py.contains (Py.lower (b_text b)) word) blacklist).

(** [<] on the keys [(-size, page, bbox[1])], compared as tuples. *)
Definition title_key_lt (a b : Block) : bool :=
  if negb (Qeq_bool (- b_size a) (- b_size b))
  then Py.Qltb (- b_size a) (- b_size b)
  else if negb (Nat.eqb (b_page a) (b_page b))
  then (b_page a <? b_page b)%nat
  else Py.Qltb (by0 (b_bbox a)) (by0 (b_bbox b)).

(** [<] on the keys [(page, y)] of the heading sort. *)
Definition heading_key_lt (a b : nat * Q) : bool :=
  if negb (Nat.eqb (fst a) (fst b)) then (fst a <? fst b)%nat
  else Py.Qltb (snd a) (snd b).

(** The mean-based admission threshold. *)
Definition heading_threshold (blocks : list Block) : Q :=
  let font_sizes := map b_size blocks in
  match font_sizes with
  | [] => 0
  | _ => Py.np_mean font_sizes + 1.5
  end.

(** The body of the candidate loop: [false] where the source continues. *)
Definition candidate_test (n : nat) (threshold : Q) (title_text : string)
    (idx : nat) (b : Block) : bool :=
  let txt := Py.strip (b_text b) in
  if Nat.eqb idx (n - 1) then false
  else if String.eqb txt "" || String.eqb txt title_text then false
  else if (String.length txt <? 3)%nat || (150 <? String.length txt)%nat then false
  else if ends_with_single_dot txt then false
  else if Py.Qltb (b_size b) threshold then false
  else true.

Fixpoint candidates_loop (n : nat) (threshold : Q) (title_text : string)
    (idx : nat) (blocks : list Block) (candidates : list Block) : list Block :=
  match blocks with
  | [] => candidates
  | b :: rest =>
      candidates_loop n threshold title_text (S idx) rest
        (if candidate_test n threshold title_text idx b
         then candidates ++ [b] else candidates)
  end.

Definition heading_candidates (blocks : list Block) (title_text : string)
    : list Block :=
  candidates_loop (length blocks) (heading_threshold blocks) title_text 0 blocks [].

(** [next(c for c in candidates if ...)] and the key built on it; [None]
    stands for [StopIteration]. *)
Definition source_candidate (candidates : list Block) (h : Heading)
    : option Block :=
  List.find (fun c => String.eqb (b_text c) (h_text h)
                      && Nat.eqb (b_page c) (h_page h)) candidates.

Definition heading_key (candidates : list Block) (h : Heading)
    : option (nat * Q) :=
  c ← source_candidate candidates h; Some (h_page h, by0 (b_bbox c)).

(** [headings.sort(key=...)]: the keys are computed first, then the list is
    sorted on them. *)
Definition sort_headings (candidates : list Block) (headings : list Heading)
    : option (list Heading) :=
  keyed ← mapM (fun h => k ← heading_key candidates h; Some (k, h)) headings;
  Some (map snd (Py.sorted (fun a b => heading_key_lt (fst a) (fst b)) keyed)).

(** The hierarchy consistency pass, returning [filtered] and [last_level]. *)
Fixpoint hierarchy_loop (filtered : list Heading) (last_level : option Z)
    (headings : list Heading) : list Heading * option Z :=
  match headings with
  | [] => (filtered, last_level)
  | h :: rest =>
      match heading_level_number (h_level h) with
      | None => hierarchy_loop (filtered ++ [h]) last_level rest
      | Some lvl =>
          if match last_level with
             | None => true
             | Some last => (lvl <=? last + 1)%Z
             end
          then hierarchy_loop (filtered ++ [h]) (Some lvl) rest
          else hierarchy_loop filtered last_level rest
      end
  end.

Definition hierarchy_pass (headings : list Heading) : list Heading :=
  fst (hierarchy_loop [] None headings).

Section Pipeline.

(** [crop_and_ocr] of the page with the given index and a box. *)
Variable crop_and_ocr : nat -> BBox -> string.

Definition extract_title (blocks : list Block) : string * string :=
  let candidates := List.filter title_candidate blocks in
  match candidates with
  | [] => ("", "")
  | _ =>
      match Py.sorted title_key_lt candidates with
      | title_block :: _ =>
          (b_text title_block,
           crop_and_ocr (b_page title_block) (b_bbox title_block))
      | [] => ("", "")
      end
  end.

(** The heading built for candidate [c]. *)
Definition make_heading (size_to_level : list (Q * string)) (c : Block)
    : Heading :=
  {| h_level := default "H3" (dict_get (b_size c) size_to_level);
     h_text := b_text c;
     h_page := b_page c;
     h_ocr_text := crop_and_ocr (b_page c) (b_bbox c) |}.

(** The headings after the sort and before the hierarchy pass. *)
Definition ordered_headings (candidates : list Block)
    : option (list Heading) :=
  sort_headings candidates
    (map (make_heading (cluster_font_sizes candidates)) candidates).

Definition extract_headings (blocks : list Block) (title_text : string)
    : option (list Heading) :=
  match blocks with
  | [] => Some []
  | _ =>
      let candidates := heading_candidates blocks title_text in
      match candidates with
      | [] => Some []
      | _ => hierarchy_pass <$> ordered_headings candidates
      end
  end.

Definition outline_entry (h : Heading) : OutlineEntry :=
  {| e_level := h_level h;
     e_text := or_else (h_ocr_text h) (h_text h);
     e_page := h_page h + 1 |}.

(** [main] from the parsed blocks on: title, noise filter, headings. *)
Definition main_from (blocks : list Block) (tables : gmap nat (list BBox))
    : option Output :=
  let '(title_text, title_ocr) := extract_title blocks in
  let '(header_blocks, footer_blocks) := remove_headers_footers blocks 0.1 in
  let combined_blocks := header_blocks ∪ footer_blocks in
  let filtered_blocks := filter_blocks 0 blocks combined_blocks tables in
  headings ← extract_headings filtered_blocks title_text;
  Some {| o_title := or_else title_ocr title_text;
          o_outline := map outline_entry headings |}.

Definition main (doc : list Page) : option Output :=
  main_from (parse_pdf doc) (get_tables_bboxes doc).

End Pipeline.

(** ** The title selector of [test.py] *)

(** [test.py] holds an earlier copy of the pipeline; its blocks carry no page
    dimensions, which [extract_title] does not read. *)
Module TestPy.

Definition title_candidate (b : Block) : bool :=
  (Nat.eqb (b_page b) 0 || Nat.eqb (b_page b) 1)
  && (5 <? String.length (b_text b))%nat.

Definition extract_title (blocks : list Block) : string :=
  let candidates := List.filter title_candidate blocks in
  match candidates with
  | [] => ""
  | _ =>
      match Py.sorted title_key_lt candidates with
      | first :: _ => Py.strip (b_text first)
      | [] => ""
      end
  end.

End TestPy.

(** * Specification-side definitions *)

(** ** Block merger *)

(** [merge_loop] without the accumulator. *)
Fixpoint merge_from (current : Block) (blocks : list Block) : list Block :=
  match blocks with
  | [] => [current]
  | block :: rest =>
      if same_page_style block current
      then merge_from (absorb current block) rest
      else current :: merge_from block rest
  end.

(** No block matches the block before it. *)
Fixpoint chain_free (l : list Block) : Prop :=
  match l with
  | a :: (b :: _) as t => same_page_style b a = false /\ chain_free t
  | _ => True
  end.

(** ** Run merger *)

(** The span survives the blank test of the loop. *)
Definition kept (span : Span) : bool :=
  negb (String.eqb (Py.strip (s_text span)) "").

(** Equal font, size and flags. *)
Definition same_style (a b : Span) : bool :=
  String.eqb (s_font a) (s_font b)
  && Qeq_bool (s_size a) (s_size b)
  && Z.eqb (s_flags a) (s_flags b).

(** [" ".join(l)]. *)
Definition join_space (l : list string) : string :=
  match l with
  | [] => ""
  | a :: rest => a +:+ foldr (fun t acc => " " +:+ t +:+ acc) "" rest
  end.

(** A segment is a non-empty run of spans, head and tail. *)
Definition segment_spans (seg : Span * list Span) : list Span :=
  seg.1 :: seg.2.

(** The block of a segment: trimmed texts joined by spaces, the style of the
    head, the merged box. *)
Definition segment_block (page_num : nat) (height width : Q)
    (seg : Span * list Span) : Block :=
  {| b_text := join_space (map (fun s => Py.strip (s_text s)) (segment_spans seg));
     b_font := s_font seg.1; b_size := s_size seg.1; b_flags := s_flags seg.1;
     b_bbox := merge_bboxes (s_bbox seg.1) (map s_bbox seg.2);
     b_page := page_num; b_page_height := height; b_page_width := width |}.



Definition least_of (m : Q) (l : list Q) : Prop :=
  m ∈ l /\ forall x, x ∈ l -> m <= x.

Definition greatest_of (m : Q) (l : list Q) : Prop :=
  m ∈ l /\ forall x, x ∈ l -> x <= m.

(** [current] after the spans of a segment. *)
Definition current_of (seg : Span * list Span) : Current :=
  fold_left (fun cur s => extend_current cur (Py.strip (s_text s)) s) seg.2
            (new_current (Py.strip (s_text seg.1)) seg.1).

(** The statements after the span loop. *)
Definition finish_line (page_num : nat) (height width : Q)
    (st : list Block * option Current) : list Block :=
  match st with
  | (page_blocks, Some cur) =>
      page_blocks ++ [flush_current page_num height width cur]
  | (page_blocks, None) => page_blocks
  end.

(** Head-based form of the invariants of a segmentation. *)
Definition uniform (seg : Span * list Span) : Prop :=
  Forall (fun s => same_style s seg.1 = true) seg.2.

Fixpoint head_boundaries (segs : list (Span * list Span)) : Prop :=
  match segs with
  | a :: (b :: _) as rest => same_style b.1 a.1 = false /\ head_boundaries rest
  | _ => True
  end.

(** ** Title selector *)



(** ** Heading classifier *)



(** No two members are equal as numbers. *)
Fixpoint pairwise_distinct (l : list Q) : Prop :=
  match l with
  | [] => True
  | x :: rest => Forall (fun y => ~ x == y) rest /\ pairwise_distinct rest
  end.

(** Reading order: page first, then the top edge. *)
Definition reading_le (a b : Block) : Prop :=
  (b_page a < b_page b)%nat
  \/ (b_page a = b_page b /\ by0 (b_bbox a) <= by0 (b_bbox b)).

(** [heading_key_lt] on the keys of two blocks. *)
Definition reading_lt (a b : Block) : bool :=
  heading_key_lt (b_page a, by0 (b_bbox a)) (b_page b, by0 (b_bbox b)).

(** * Sample data *)

(** A block of font [F], flags 0, ten units high, on an 800 by 600 page. *)
Definition sample_block (t : string) (sz : Q) (pg : nat) (y : Q) : Block :=
  {| b_text := t; b_font := "F"; b_size := sz; b_flags := 0;
     b_bbox := mkBBox 72 y 500 (y + 10);
     b_page := pg; b_page_height := 800; b_page_width := 600 |}.

Definition sample_intro : Block := sample_block "1. Introduction" 16 1 100.

(** A two-page document: a large title, a mid-size heading, body text. *)
Definition sample_blocks : list Block :=
  [ sample_block "Report Title" 24 0 100;
    sample_block "body text of the first page" 10 0 200;
    sample_intro;
    sample_block "body text of the second page" 10 1 200;
    sample_block "closing words of the report" 10 1 300 ].

(** A document whose second page repeats the heading "Example". *)
Definition repeated_heading_blocks : list Block :=
  [ sample_block "Report Title" 24 0 100;
    sample_block "body text of the first page" 10 0 200;
    sample_block "Example" 16 1 100;
    sample_block "text of the first example" 10 1 200;
    sample_block "Remarks" 16 1 300;
    sample_block "text of the remarks" 10 1 400;
    sample_block "Example" 16 1 500;
    sample_block "text of the second example" 10 1 600;
    sample_block "closing words of the report" 10 1 700 ].

(** A large-font running header in the top margin band of page 0. *)
Definition running_header : Block :=
  {| b_text := "ACME Annual Review"; b_font := "F"; b_size := 30; b_flags := 0;
     b_bbox := mkBBox 72 20 500 50;
     b_page := 0; b_page_height := 800; b_page_width := 600 |}.

(** A block from [y0] to [y1] on a page of height 800. *)
Definition band_block (y0 y1 : Q) : Block :=
  {| b_text := "Quarterly figures"; b_font := "F"; b_size := 10; b_flags := 0;
     b_bbox := mkBBox 72 y0 500 y1;
     b_page := 0; b_page_height := 800; b_page_width := 600 |}.

Definition sample_heading (level : string) : Heading :=
  {| h_level := level; h_text := "Scope"; h_page := 3; h_ocr_text := "" |}.


(** The raw pages of a two-page report. *)
Definition raw_span (t : string) (sz x0 y0 x1 y1 : Q) : Span :=
  {| s_text := t; s_font := "Helvetica"; s_size := sz; s_flags := 0;
     s_bbox := mkBBox x0 y0 x1 y1 |}.

Definition report_pages : list Page :=
  [ mkPage 800 600
      [ mkRawBlock 0 [[raw_span "Report " 24 72 100 200 124;
                       raw_span "Title" 24 204 100 300 124]];
        mkRawBlock 1 [];
        mkRawBlock 0 [[raw_span "Body text of the first page," 10 72 200 400 210];
                      [raw_span "   " 10 72 212 80 222;
                       raw_span "continued on a second line." 10 84 212 400 222]] ];
    mkPage 800 600
      [ mkRawBlock 0 [[raw_span "1. Introduction" 16 72 100 300 116]];
        mkRawBlock 0 [[raw_span "Body text of the second page." 10 72 200 400 210]];
        mkRawBlock 0 [[raw_span "Closing paragraph" 11 72 400 400 410]] ] ].

(** An OCR collaborator that recognises nothing. *)
Definition no_ocr (page_num : nat) (bbox : BBox) : string := "".

(** An OCR collaborator that tells the two halves of a page apart. *)
Definition ocr_by_top (page_num : nat) (bbox : BBox) : string :=
  if Qle_bool 400 (by0 bbox) then "lower half" else "upper half".

(** The numeric levels of the headings whose label is numeric. *)
Definition numeric_levels (headings : list Heading) : list Z :=
  omap (fun h => heading_level_number (h_level h)) headings.

(** Each level is at most one more than the level before it, the first at
    most one more than [last]. *)
Fixpoint steps_ok (last : option Z) (levels : list Z) : Prop :=
  match levels with
  | [] => True
  | l :: rest =>
      match last with
      | None => True
      | Some p => (l <= p + 1)%Z
      end /\ steps_ok (Some l) rest
  end.

(** The box is well formed: its first corner is not beyond its second. *)
Definition well_formed (b : BBox) : Prop := bx0 b <= bx1 b /\ by0 b <= by1 b.

(** The text is not empty and has no whitespace at either end. *)
Definition clean (s : string) : Prop := s <> "" /\ Py.strip s = s.

(** The block is on page [p] of the given size and its text is clean. *)
Definition page_block (p : nat) (height width : Q) (b : Block) : Prop :=
  b_page b = p /\ b_page_height b = height /\ b_page_width b = width
  /\ clean (b_text b).

(** [a] starts no lower than [b]. *)
Definition top_le (a b : Block) : Prop := by0 (b_bbox a) <= by0 (b_bbox b).

(** * Properties *)

(** ** Facts on the string builtins *)

Section PyStrings.

#[local] Arguments String.append !_ _ / : simpl nomatch.

Lemma append_assoc (a b c : string) : (a +:+ b) +:+ c = a +:+ (b +:+ c).
Proof. induction a as [|x a IH]; simpl; [reflexivity | now rewrite IH]. Qed.

Lemma append_empty_r (a : string) : a +:+ "" = a.
Proof. induction a as [|x a IH]; simpl; [reflexivity | now rewrite IH]. Qed.











Lemma lstrip_idem (s : string) : Py.lstrip (Py.lstrip s) = Py.lstrip s.
Proof.
  induction s as [|c s IH]; simpl; [reflexivity|].
  destruct (Py.is_space c) eqn:E; [exact IH | simpl; now rewrite E].
Qed.

Lemma rstrip_cons (c : ascii) (s : string) :
  Py.rstrip (String c s) =
  if String.eqb (Py.rstrip s) "" && Py.is_space c then ""
  else String c (Py.rstrip s).
Proof.
  simpl. destruct (Py.rstrip s); simpl; [|reflexivity].
  now destruct (Py.is_space c).
Qed.

Lemma rstrip_idem (s : string) : Py.rstrip (Py.rstrip s) = Py.rstrip s.
Proof.
  induction s as [|c s IH]; [reflexivity|].
  rewrite rstrip_cons.
  destruct (String.eqb (Py.rstrip s) "" && Py.is_space c) eqn:E; [reflexivity|].
  rewrite rstrip_cons, IH, E. reflexivity.
Qed.

Lemma rstrip_lstrip (s : string) :
  Py.rstrip (Py.lstrip s) = Py.lstrip (Py.rstrip s).
Proof.
  induction s as [|c s IH]; [reflexivity|].
  rewrite rstrip_cons. cbn [Py.lstrip].
  destruct (Py.is_space c) eqn:E.
  - rewrite IH, andb_true_r.
    destruct (String.eqb_spec (Py.rstrip s) "") as [-> | _]; [reflexivity|].
    simpl. now rewrite E.
  - rewrite andb_false_r, rstrip_cons, E, andb_false_r. simpl. now rewrite E.
Qed.

Lemma strip_idem (s : string) : Py.strip (Py.strip s) = Py.strip s.
Proof.
  unfold Py.strip.
  rewrite rstrip_lstrip, lstrip_idem, rstrip_idem. reflexivity.
Qed.

End PyStrings.

(** ** Facts on the stable sort *)

Lemma insert_sorted_map {A B : Type} (f : A -> B) (lt : B -> B -> bool)
    (x : A) (l : list A) :
  Py.insert_sorted lt (f x) (map f l)
  = map f (Py.insert_sorted (fun a b => lt (f a) (f b)) x l).
Proof.
  induction l as [|y l IH]; simpl; [reflexivity|].
  destruct (lt (f y) (f x)); simpl; [now rewrite IH | reflexivity].
Qed.

(** Sorting decorated items is decorating the sorted items. *)
Lemma sorted_map {A B : Type} (f : A -> B) (lt : B -> B -> bool) (l : list A) :
  Py.sorted lt (map f l) = map f (Py.sorted (fun a b => lt (f a) (f b)) l).
Proof.
  induction l as [|x l IH]; simpl; [reflexivity|].
  now rewrite IH, insert_sorted_map.
Qed.

Section SortFacts.

Context {A : Type} (lt : A -> A -> bool).

(** [le a b]: [b] does not come strictly before [a]. *)
Let le (a b : A) : Prop := lt b a = false.

Lemma insert_sorted_perm (x : A) (l : list A) :
  Py.insert_sorted lt x l ≡ₚ x :: l.
Proof.
  induction l as [|y l IH]; simpl; [reflexivity|].
  destruct (lt y x); [|reflexivity].
  rewrite IH. apply Permutation_swap.
Qed.

Lemma sorted_perm (l : list A) : Py.sorted lt l ≡ₚ l.
Proof.
  induction l as [|x l IH]; simpl; [reflexivity|].
  rewrite insert_sorted_perm. now rewrite IH.
Qed.

Hypothesis lt_asym : forall a b, lt a b = true -> lt b a = false.
Hypothesis le_trans : forall a b c, lt b a = false -> lt c b = false -> lt c a = false.


Lemma insert_sorted_StronglySorted (x : A) (l : list A) :
  StronglySorted le l -> StronglySorted le (Py.insert_sorted lt x l).
Proof.
  induction l as [|y l IH]; intros Hs; simpl.
  - repeat constructor.
  - apply StronglySorted_inv in Hs as [Hs Hy].
    destruct (lt y x) eqn:E.
    + constructor; [now apply IH|].
      rewrite insert_sorted_perm. constructor; [|exact Hy].
      now apply lt_asym.
    + constructor; [now constructor|].
      constructor; [exact E|].
      eapply Forall_impl; [exact Hy|].
      intros z Hz. unfold le in *. now apply (le_trans x y z).
Qed.

Lemma sorted_StronglySorted (l : list A) : StronglySorted le (Py.sorted lt l).
Proof.
  induction l as [|x l IH]; simpl; [constructor|].
  now apply insert_sorted_StronglySorted.
Qed.


End SortFacts.

(** ** Heading classifier: threshold and candidate filter *)

Section Candidates.

Variable crop_and_ocr : nat -> BBox -> string.


Lemma Qltb_false_iff (x y : Q) : Py.Qltb x y = false <-> y <= x.
Proof.
  unfold Py.Qltb. rewrite negb_false_iff. apply Qle_bool_iff.
Qed.

Lemma Qltb_true_iff (x y : Q) : Py.Qltb x y = true <-> x < y.
Proof.
  unfold Py.Qltb. rewrite negb_true_iff. split.
  - intros H. apply Qnot_le_lt. intros Hle. apply Qle_bool_iff in Hle. congruence.
  - intros H. apply not_true_iff_false. intros Hle. apply Qle_bool_iff in Hle.
    now apply Qlt_not_le in H.
Qed.



Lemma candidates_loop_filter n threshold title_text idx blocks candidates :
  candidates_loop n threshold title_text idx blocks candidates =
  candidates ++
  (List.filter (fun ib => candidate_test n threshold title_text ib.1 ib.2)
               (imap (fun i b => ((idx + i)%nat, b)) blocks)).*2.
Proof.
  revert idx candidates.
  induction blocks as [|b rest IH]; intros idx candidates; simpl.
  - now rewrite app_nil_r.
  - rewrite IH, Nat.add_0_r.
    rewrite (imap_ext ((fun i b => ((idx + i)%nat, b)) ∘ S)
                      (fun i b => ((S idx + i)%nat, b)) rest)
      by (intros; simpl; f_equal; lia).
    destruct (candidate_test n threshold title_text idx b); simpl.
    + now rewrite <- app_assoc.
    + reflexivity.
Qed.



End Candidates.


(** ** Heading classifier: level clustering *)

Section Clustering.

Variable crop_and_ocr : nat -> BBox -> string.

Lemma pairwise_distinct_perm (l l' : list Q) :
  l ≡ₚ l' -> pairwise_distinct l -> pairwise_distinct l'.
Proof.
  induction 1 as [|x l l' Hp IH|x y l|l l' l'' _ IH1 _ IH2]; simpl.
  - trivial.
  - intros [Hx Hl]. split; [now rewrite <- Hp | now apply IH].
  - intros [Hy [Hx Hl]]. apply Forall_cons in Hy as [Hyx Hy].
    repeat split; try assumption.
    constructor; [|assumption]. intros H. apply Hyx. now symmetry.
  - auto.
Qed.

Lemma pairwise_distinct_snoc (s : list Q) (x : Q) :
  pairwise_distinct s -> existsb (Qeq_bool x) s = false ->
  pairwise_distinct (s ++ [x]).
Proof.
  induction s as [|y s IH]; simpl; intros Hs Hx.
  - split; constructor.
  - destruct Hs as [Hy Hs]. apply orb_false_iff in Hx as [Hxy Hx].
    split; [|now apply IH].
    apply Forall_app. split; [exact Hy|].
    constructor; [|constructor].
    intros H. apply Qeq_bool_neq in Hxy. apply Hxy. now symmetry.
Qed.

Lemma set_from_distinct (l s : list Q) :
  pairwise_distinct s ->
  pairwise_distinct (fold_left (fun s x => set_add x s) l s).
Proof.
  revert s. induction l as [|x l IH]; intros s Hs; simpl; [exact Hs|].
  apply IH. unfold set_add.
  destruct (existsb (Qeq_bool x) s) eqn:E; [exact Hs|].
  now apply pairwise_distinct_snoc.
Qed.

Lemma set_from_sound (l s : list Q) (y : Q) :
  y ∈ fold_left (fun s x => set_add x s) l s -> y ∈ s \/ y ∈ l.
Proof.
  revert s. induction l as [|x l IH]; intros s Hy; simpl in Hy; [now left|].
  apply IH in Hy as [Hy | Hy]; [|right; now constructor].
  unfold set_add in Hy. destruct (existsb (Qeq_bool x) s); [now left|].
  apply elem_of_app in Hy as [Hy | Hy]; [now left | right].
  apply list_elem_of_singleton in Hy as ->. constructor.
Qed.

Lemma set_from_complete (l s : list Q) (x : Q) :
  (exists y, y ∈ s /\ y == x) \/ x ∈ l ->
  exists y, y ∈ fold_left (fun s x => set_add x s) l s /\ y == x.
Proof.
  revert s. induction l as [|z l IH]; intros s [Hs | Hl]; simpl.
  - exact Hs.
  - now apply elem_of_nil in Hl.
  - apply IH. left. destruct Hs as (y & Hy & Hyx). exists y.
    split; [|exact Hyx]. unfold set_add.
    destruct (existsb (Qeq_bool z) s); [exact Hy|].
    apply elem_of_app. now left.
  - apply IH. apply elem_of_cons in Hl as [-> | Hl]; [left | now right].
    unfold set_add. destruct (existsb (Qeq_bool z) s) eqn:E.
    + apply existsb_exists in E as (y & Hy & Hzy).
      exists y. split; [now apply list_elem_of_In|].
      apply Qeq_bool_iff in Hzy. now symmetry.
    + exists z. split; [|reflexivity]. apply elem_of_app. right. constructor.
Qed.

Lemma size_order_asym (a b : Q) : Py.Qltb b a = true -> Py.Qltb a b = false.
Proof.
  rewrite Qltb_true_iff, Qltb_false_iff. apply Qlt_le_weak.
Qed.

Lemma size_order_trans (a b c : Q) :
  Py.Qltb a b = false -> Py.Qltb b c = false -> Py.Qltb a c = false.
Proof.
  rewrite !Qltb_false_iff. intros Hba Hcb. now apply (Qle_trans c b a).
Qed.

Lemma descending_strict (l : list Q) :
  pairwise_distinct l ->
  StronglySorted (fun a b => Py.Qltb a b = false) l ->
  StronglySorted (fun a b => b < a) l.
Proof.
  induction l as [|x l IH]; intros Hd Hs; [constructor|].
  destruct Hd as [Hx Hd]. apply StronglySorted_inv in Hs as [Hs Hle].
  constructor; [now apply IH|].
  apply Forall_forall. intros y Hy.
  rewrite Forall_forall in Hx, Hle.
  specialize (Hx y Hy). specialize (Hle y Hy).
  apply Qltb_false_iff in Hle.
  apply Qle_lt_or_eq in Hle as [Hlt | Heq]; [exact Hlt|].
  exfalso. apply Hx. now symmetry.
Qed.

Lemma dict_get_set (k k' : Q) (v : string) (d : list (Q * string)) :
  dict_get k (dict_set k' v d) =
  if Qeq_bool k' k then Some v else dict_get k d.
Proof.
  induction d as [|[k'' v''] d IH]; simpl; [reflexivity|].
  destruct (Qeq_bool k'' k') eqn:E; simpl.
  - apply Qeq_bool_iff in E. rewrite E.
    now destruct (Qeq_bool k' k).
  - rewrite IH. destruct (Qeq_bool k'' k) eqn:E2; [|reflexivity].
    destruct (Qeq_bool k' k) eqn:E3; [|reflexivity].
    apply Qeq_bool_iff in E2, E3. apply Qeq_bool_neq in E.
    exfalso. apply E. now rewrite E2, E3.
Qed.

Lemma cluster_loop_other (s : Q) (i : nat) (sizes : list Q)
    (d : list (Q * string)) :
  Forall (fun y => ~ y == s) sizes ->
  dict_get s (cluster_loop i sizes d) = dict_get s d.
Proof.
  revert i d. induction sizes as [|x sizes IH]; intros i d Hs; simpl.
  - reflexivity.
  - apply Forall_cons in Hs as [Hx Hs]. rewrite IH by exact Hs.
    rewrite dict_get_set.
    destruct (Qeq_bool x s) eqn:E; [|reflexivity].
    apply Qeq_bool_iff in E. contradiction.
Qed.

Lemma cluster_loop_rank (s s' : Q) (i k : nat) (sizes : list Q)
    (d : list (Q * string)) :
  pairwise_distinct sizes -> sizes !! k = Some s' -> s' == s ->
  dict_get s (cluster_loop i sizes d) = Some (level_label (i + k)).
Proof.
  revert i k d. induction sizes as [|x sizes IH]; intros i k d Hd Hk Hs.
  - discriminate.
  - destruct Hd as [Hx Hd]. destruct k as [|k]; simpl in Hk.
    + injection Hk as ->. simpl. rewrite cluster_loop_other.
      * rewrite dict_get_set. apply Qeq_bool_iff in Hs. rewrite Hs.
        now rewrite Nat.add_0_r.
      * eapply Forall_impl; [exact Hx|]. intros y Hy Hys.
        apply Hy. now rewrite Hys.
    + simpl. rewrite (IH (S i) k _ Hd Hk Hs). f_equal. f_equal. lia.
Qed.

Lemma cluster_sizes_distinct (candidates : list Block) :
  pairwise_distinct (cluster_sizes candidates).
Proof.
  unfold cluster_sizes. eapply pairwise_distinct_perm.
  - symmetry. apply sorted_perm.
  - apply set_from_distinct. exact I.
Qed.

Lemma cluster_sizes_complete (candidates : list Block) (c : Block) :
  c ∈ candidates ->
  exists k s, cluster_sizes candidates !! k = Some s /\ s == b_size c.
Proof.
  intros Hc.
  destruct (set_from_complete (map b_size candidates) [] (b_size c))
    as (y & Hy & Hyc).
  { right. apply list_elem_of_fmap. now exists c. }
  assert (Hin : y ∈ cluster_sizes candidates)
    by (unfold cluster_sizes; now rewrite sorted_perm).
  apply list_elem_of_lookup in Hin as (k & Hk). now exists k, y.
Qed.

(** C3: the sizes that [cluster_font_sizes] ranks are strictly descending,
    each is the size of a candidate, and the size of rank [k] (from 0) maps
    to ["H" + str(k + 1)], so the largest maps to H1 and the next to H2;
    the size of every candidate has an entry, which is the level of its
    heading (the H3 default is not taken), and candidates of equal size get
    equal levels. *)
Theorem cluster_font_sizes_rank (candidates : list Block) :
  let sizes := cluster_sizes candidates in
  let size_to_level := cluster_font_sizes candidates in
  StronglySorted (fun a b => b < a) sizes
  /\ (forall s, s ∈ sizes -> exists c, c ∈ candidates /\ b_size c = s)
  /\ (forall k s, sizes !! k = Some s ->
        dict_get s size_to_level = Some ("H" +:+ Py.str_of_nat (k + 1)))
  /\ "H" +:+ Py.str_of_nat (0 + 1) = "H1"
  /\ "H" +:+ Py.str_of_nat (1 + 1) = "H2"
  /\ (forall c, c ∈ candidates ->
        exists k s, sizes !! k = Some s /\ s == b_size c
          /\ dict_get (b_size c) size_to_level
             = Some ("H" +:+ Py.str_of_nat (k + 1))
          /\ h_level (make_heading crop_and_ocr size_to_level c)
             = "H" +:+ Py.str_of_nat (k + 1))
  /\ (forall c1 c2, c1 ∈ candidates -> c2 ∈ candidates ->
        b_size c1 == b_size c2 ->
        h_level (make_heading crop_and_ocr size_to_level c1)
        = h_level (make_heading crop_and_ocr size_to_level c2)).
Proof.
  intros sizes size_to_level.
  pose proof (cluster_sizes_distinct candidates) as Hd. fold sizes in Hd.
  assert (Hrank : forall k s s', sizes !! k = Some s' -> s' == s ->
            dict_get s size_to_level = Some ("H" +:+ Py.str_of_nat (k + 1))).
  { intros k s s' Hk Hs. subst size_to_level. unfold cluster_font_sizes.
    fold sizes. now rewrite (cluster_loop_rank s s' 0 k sizes [] Hd Hk Hs). }
  assert (Hcand : forall c, c ∈ candidates ->
            exists k s, sizes !! k = Some s /\ s == b_size c
              /\ dict_get (b_size c) size_to_level
                 = Some ("H" +:+ Py.str_of_nat (k + 1))).
  { intros c Hc.
    destruct (cluster_sizes_complete candidates c Hc) as (k & s & Hk & Hs).
    exists k, s. repeat split; try assumption. now apply (Hrank k _ s). }
  split; [|split; [|split; [|split; [|split; [|split]]]]].
  - apply descending_strict; [exact Hd|].
    apply (sorted_StronglySorted (fun a b => Py.Qltb b a)).
    + intros a b. apply size_order_asym.
    + intros a b c. apply size_order_trans.
  - intros s Hs. subst sizes. unfold cluster_sizes in Hs.
    rewrite sorted_perm in Hs.
    apply set_from_sound in Hs as [Hs | Hs]; [now apply elem_of_nil in Hs|].
    apply list_elem_of_fmap in Hs as (c & -> & Hc). now exists c.
  - intros k s Hk. now apply (Hrank k s s).
  - reflexivity.
  - reflexivity.
  - intros c Hc. destruct (Hcand c Hc) as (k & s & Hk & Hs & Hget).
    exists k, s. repeat split; try assumption.
    unfold make_heading. simpl. now rewrite Hget.
  - intros c1 c2 Hc1 _ Heq.
    destruct (Hcand c1 Hc1) as (k & s & Hk & Hs & Hget).
    unfold make_heading. simpl. rewrite Hget.
    rewrite (Hrank k (b_size c2) s Hk); [reflexivity|].
    now rewrite Hs.
Qed.

End Clustering.

Lemma cluster_font_sizes_rank_witness :
  sample_intro ∈ sample_blocks
  /\ cluster_sizes sample_blocks = [24; 16; 10]
  /\ exists k s, cluster_sizes sample_blocks !! k = Some s
       /\ s == b_size sample_intro
       /\ dict_get (b_size sample_intro) (cluster_font_sizes sample_blocks)
          = Some ("H" +:+ Py.str_of_nat (k + 1))
       /\ h_level (make_heading no_ocr (cluster_font_sizes sample_blocks)
                     sample_intro)
          = "H" +:+ Py.str_of_nat (k + 1).
Proof.
  assert (Hin : sample_intro ∈ sample_blocks)
    by (apply list_elem_of_lookup; now exists 2%nat).
  split; [exact Hin | split; [reflexivity|]].
  destruct (cluster_font_sizes_rank no_ocr sample_blocks) as (_ & _ & _ & _ & _ & H & _).
  exact (H sample_intro Hin).
Defined.

(** ** Heading classifier: hierarchy consistency pass *)

Section Hierarchy.

Lemma hierarchy_loop_acc filtered last headings :
  hierarchy_loop filtered last headings =
  (filtered ++ (hierarchy_loop [] last headings).1,
   (hierarchy_loop [] last headings).2).
Proof.
  revert filtered last.
  induction headings as [|h rest IH]; intros filtered last; simpl.
  - now rewrite app_nil_r.
  - destruct (heading_level_number (h_level h)) as [lvl|].
    + destruct (match last with
                | Some last0 => (lvl <=? last0 + 1)%Z
                | None => true
                end).
      * rewrite (IH (filtered ++ [h])), (IH [h]). simpl.
        now rewrite <- app_assoc.
      * apply IH.
    + rewrite (IH (filtered ++ [h])), (IH [h]). simpl.
      now rewrite <- app_assoc.
Qed.


Lemma hierarchy_loop_sublist last headings :
  sublist (hierarchy_loop [] last headings).1 headings.
Proof.
  revert last. induction headings as [|h rest IH]; intros last; simpl.
  - constructor.
  - destruct (heading_level_number (h_level h)) as [lvl|].
    + destruct (match last with
                | Some last0 => (lvl <=? last0 + 1)%Z
                | None => true
                end).
      * rewrite hierarchy_loop_acc. simpl. constructor. apply IH.
      * apply sublist_cons, IH.
    + rewrite hierarchy_loop_acc. simpl. constructor. apply IH.
Qed.



End Hierarchy.

(** ** Title selector *)

Section Title.

Variable crop_and_ocr : nat -> BBox -> string.







End Title.

Section BlockMerger.

Lemma merge_loop_from merged current blocks :
  merge_loop merged current blocks = merged ++ merge_from current blocks.
Proof.
  revert merged current.
  induction blocks as [|block rest IH]; intros merged current; simpl.
  - reflexivity.
  - destruct (same_page_style block current).
    + apply IH.
    + rewrite IH, <- app_assoc. reflexivity.
Qed.

Lemma same_page_style_absorb block current other :
  same_page_style block (absorb current other) = same_page_style block current.
Proof. reflexivity. Qed.

(** The first block that [merge_from] emits is matched by exactly the blocks
    that match [current]. *)
Lemma merge_from_head current blocks :
  exists h t, merge_from current blocks = h :: t
    /\ forall b, same_page_style b h = same_page_style b current.
Proof.
  revert current.
  induction blocks as [|block rest IH]; intros current; simpl.
  - eauto.
  - destruct (same_page_style block current).
    + destruct (IH (absorb current block)) as (h & t & -> & Hh).
      exists h, t. split; [reflexivity|]. intros b. rewrite Hh. reflexivity.
    + eauto.
Qed.

Lemma merge_from_chain_free current blocks :
  chain_free (merge_from current blocks).
Proof.
  revert current.
  induction blocks as [|block rest IH]; intros current; simpl.
  - exact I.
  - destruct (same_page_style block current) eqn:E.
    + apply IH.
    + pose proof (IH block) as Hfree.
      destruct (merge_from_head block rest) as (h & t & Heq & Hh).
      rewrite Heq in *. simpl. split; [|exact Hfree].
      (* [h] carries the page and style of [block] *)
      clear -E Hh. unfold same_page_style in *.
      specialize (Hh h).
      destruct h, block, current; simpl in *.
      rewrite Nat.eqb_refl, String.eqb_refl, Qeq_bool_refl, Z.eqb_refl in Hh.
      simpl in Hh. symmetry in Hh.
      apply andb_prop in Hh as [Hh Hf]. apply andb_prop in Hh as [Hh Hs].
      apply andb_prop in Hh as [Hp Hn].
      apply Nat.eqb_eq in Hp. apply String.eqb_eq in Hn. apply Z.eqb_eq in Hf.
      subst.
      rewrite <- E. f_equal. f_equal.
      apply Qeq_bool_iff in Hs. rewrite Hs. reflexivity.
Qed.

Lemma merge_from_fixed h t :
  chain_free (h :: t) -> merge_from h t = h :: t.
Proof.
  revert h. induction t as [|b t IH]; intros h Hfree; simpl.
  - reflexivity.
  - destruct Hfree as [Hne Hfree]. rewrite Hne. f_equal. apply IH, Hfree.
Qed.

Lemma chain_free_lookup l :
  chain_free l <->
  forall i a b, l !! i = Some a -> l !! S i = Some b -> same_page_style b a = false.
Proof.
  induction l as [|x [|y l] IH].
  - split; [intros _ i a b H; destruct i; discriminate| intros; exact I].
  - split; [intros _ i a b _ H; destruct i; discriminate | intros; exact I].
  - split.
    + intros [Hxy Hfree] [|i] a b Ha Hb.
      * simpl in *. congruence.
      * apply (proj1 IH Hfree i a b); assumption.
    + intros H. split.
      * apply (H 0%nat x y); reflexivity.
      * apply IH. intros i a b Ha Hb. apply (H (S i) a b); assumption.
Qed.

(** C10: [merge_consecutive_blocks] is idempotent: merging the output of the
    merger again returns that output, and in the output no block has the
    page, font, size and flags of the block before it. *)
Theorem merge_consecutive_blocks_idempotent (blocks : list Block) :
  merge_consecutive_blocks (merge_consecutive_blocks blocks)
  = merge_consecutive_blocks blocks
  /\ forall i a b,
       merge_consecutive_blocks blocks !! i = Some a ->
       merge_consecutive_blocks blocks !! S i = Some b ->
       same_page_style b a = false.
Proof.
  destruct blocks as [|first rest].
  - split; [reflexivity|]. intros i a b H. destruct i; discriminate.
  - assert (Hout : merge_consecutive_blocks (first :: rest)
                   = merge_from first rest)
      by (simpl; apply merge_loop_from).
    rewrite Hout.
    pose proof (merge_from_chain_free first rest) as Hfree.
    split; [|exact (proj1 (chain_free_lookup _) Hfree)].
    destruct (merge_from first rest) as [|h t] eqn:E.
    + reflexivity.
    + simpl. rewrite merge_loop_from. simpl. apply merge_from_fixed, Hfree.
Qed.

End BlockMerger.

(** ** Run merger *)

Section RunMerger.

Variables (page_num : nat) (height width : Q).

Lemma min_of_least (first : Q) (rest : list Q) :
  least_of (Py.min_of first rest) (first :: rest).
Proof.
  unfold Py.min_of. revert first.
  induction rest as [|x rest IH]; intros first; simpl.
  - split; [constructor|]. intros y Hy.
    apply list_elem_of_singleton in Hy as ->. apply Qle_refl.
  - destruct (IH (if Py.Qltb x first then x else first)) as [Hin Hle].
    assert (Hm : (if Py.Qltb x first then x else first) <= first
                 /\ (if Py.Qltb x first then x else first) <= x).
    { destruct (Py.Qltb x first) eqn:E.
      - apply Qltb_true_iff in E. split; [now apply Qlt_le_weak | apply Qle_refl].
      - apply Qltb_false_iff in E. split; [apply Qle_refl | exact E]. }
    assert (Hfold : forall y, y ∈ (if Py.Qltb x first then x else first) :: rest
                      -> y ∈ first :: x :: rest).
    { intros y Hy. apply elem_of_cons in Hy as [-> | Hy].
      - destruct (Py.Qltb x first); [right; left | left].
      - now do 2 right. }
    split; [now apply Hfold|].
    intros y Hy.
    assert (Hhead := Hle _ (list_elem_of_here _ rest)).
    apply elem_of_cons in Hy as [-> | Hy]; [lra|].
    apply elem_of_cons in Hy as [-> | Hy]; [lra|].
    apply Hle. now right.
Qed.

Lemma max_of_greatest (first : Q) (rest : list Q) :
  greatest_of (Py.max_of first rest) (first :: rest).
Proof.
  unfold Py.max_of. revert first.
  induction rest as [|x rest IH]; intros first; simpl.
  - split; [constructor|]. intros y Hy.
    apply list_elem_of_singleton in Hy as ->. apply Qle_refl.
  - destruct (IH (if Py.Qltb first x then x else first)) as [Hin Hle].
    assert (Hm : first <= (if Py.Qltb first x then x else first)
                 /\ x <= (if Py.Qltb first x then x else first)).
    { destruct (Py.Qltb first x) eqn:E.
      - apply Qltb_true_iff in E. split; [now apply Qlt_le_weak | apply Qle_refl].
      - apply Qltb_false_iff in E. split; [apply Qle_refl | exact E]. }
    assert (Hfold : forall y, y ∈ (if Py.Qltb first x then x else first) :: rest
                      -> y ∈ first :: x :: rest).
    { intros y Hy. apply elem_of_cons in Hy as [-> | Hy].
      - destruct (Py.Qltb first x); [right; left | left].
      - now do 2 right. }
    split; [now apply Hfold|].
    intros y Hy.
    assert (Hhead := Hle _ (list_elem_of_here _ rest)).
    apply elem_of_cons in Hy as [-> | Hy]; [lra|].
    apply elem_of_cons in Hy as [-> | Hy]; [lra|].
    apply Hle. now right.
Qed.




Lemma current_of_fields (seg : Span * list Span) :
  c_font (current_of seg) = s_font seg.1
  /\ c_size (current_of seg) = s_size seg.1
  /\ c_flags (current_of seg) = s_flags seg.1
  /\ c_bbox0 (current_of seg) = s_bbox seg.1
  /\ c_bboxes (current_of seg) = map s_bbox seg.2
  /\ c_text (current_of seg) =
     join_space (map (fun s => Py.strip (s_text s)) (segment_spans seg)).
Proof.
  destruct seg as [hd tl]. unfold current_of, segment_spans. simpl.
  assert (Hgen : forall cur,
    let out := fold_left
                 (fun cur s => extend_current cur (Py.strip (s_text s)) s)
                 tl cur in
    c_font out = c_font cur /\ c_size out = c_size cur
    /\ c_flags out = c_flags cur /\ c_bbox0 out = c_bbox0 cur
    /\ c_bboxes out = c_bboxes cur ++ map s_bbox tl
    /\ c_text out =
       c_text cur +:+ foldr (fun t acc => " " +:+ t +:+ acc) ""
                        (map (fun s => Py.strip (s_text s)) tl)).
  { induction tl as [|s tl IH]; intros cur; simpl.
    - now rewrite app_nil_r, append_empty_r.
    - destruct (IH (extend_current cur (Py.strip (s_text s)) s))
        as (H1 & H2 & H3 & H4 & H5 & H6).
      simpl in *. repeat split; try assumption.
      + now rewrite H5, <- app_assoc.
      + now rewrite H6, !append_assoc. }
  apply (Hgen (new_current (Py.strip (s_text hd)) hd)).
Qed.

Lemma flush_current_of (seg : Span * list Span) :
  flush_current page_num height width (current_of seg)
  = segment_block page_num height width seg.
Proof.
  destruct (current_of_fields seg) as (H1 & H2 & H3 & H4 & H5 & H6).
  unfold flush_current, segment_block. now rewrite H1, H2, H3, H4, H5, H6.
Qed.

Lemma same_run_style_current_of (span : Span) (seg : Span * list Span) :
  same_run_style span (current_of seg) = same_style span seg.1.
Proof.
  destruct (current_of_fields seg) as (H1 & H2 & H3 & _).
  unfold same_run_style, same_style. now rewrite H1, H2, H3.
Qed.

Lemma extend_current_of (hd span : Span) (tl : list Span) :
  extend_current (current_of (hd, tl)) (Py.strip (s_text span)) span
  = current_of (hd, tl ++ [span]).
Proof. unfold current_of. simpl. now rewrite fold_left_app. Qed.

Lemma span_loop_acc (spans : list Span) (page_blocks : list Block)
    (current : option Current) :
  finish_line page_num height width
    (span_loop page_num height width page_blocks current spans)
  = page_blocks
    ++ finish_line page_num height width
         (span_loop page_num height width [] current spans).
Proof.
  revert page_blocks current.
  induction spans as [|span rest IH]; intros page_blocks current; simpl.
  - destruct current; simpl; [reflexivity | now rewrite app_nil_r].
  - destruct (String.eqb (Py.strip (s_text span)) ""); [apply IH|].
    destruct current as [cur|]; [|apply IH].
    destruct (same_run_style span cur); [apply IH|].
    rewrite IH, (IH [_]). now rewrite <- app_assoc.
Qed.

Lemma span_loop_segments (spans : list Span) (hd : Span) (tl : list Span) :
  uniform (hd, tl) ->
  exists tl' rest,
    finish_line page_num height width
      (span_loop page_num height width [] (Some (current_of (hd, tl))) spans)
    = map (segment_block page_num height width) ((hd, tl') :: rest)
    /\ concat (map segment_spans ((hd, tl') :: rest))
       = (hd :: tl) ++ List.filter kept spans
    /\ Forall uniform ((hd, tl') :: rest)
    /\ head_boundaries ((hd, tl') :: rest).
Proof.
  revert hd tl. induction spans as [|span spans IH]; intros hd tl Hu.
  - exists tl, []. simpl. rewrite flush_current_of.
    split; [reflexivity|]. split; [now rewrite !app_nil_r|].
    split; [now repeat constructor | exact I].
  - cbn [span_loop List.filter]. unfold kept at 1.
    destruct (String.eqb (Py.strip (s_text span)) "") eqn:Eb; cbn [negb].
    + apply IH, Hu.
    + rewrite same_run_style_current_of. cbn [fst].
      destruct (same_style span hd) eqn:Es.
      * rewrite extend_current_of.
        destruct (IH hd (tl ++ [span])) as (tl' & rest & H1 & H2 & H3 & H4).
        { apply Forall_app. split; [exact Hu | now repeat constructor]. }
        exists tl', rest. repeat split; try assumption.
        rewrite H2. simpl. now rewrite <- app_assoc.
      * rewrite span_loop_acc, flush_current_of.
        change (new_current (Py.strip (s_text span)) span)
          with (current_of (span, [])).
        destruct (IH span []) as (tl' & rest & H1 & H2 & H3 & H4);
          [constructor|].
        exists tl, ((span, tl') :: rest). rewrite H1.
        repeat split.
        -- cbn [map concat] in *. rewrite H2. reflexivity.
        -- constructor; [exact Hu | exact H3].
        -- exact Es.
        -- exact H4.
Qed.

Lemma merge_line_segments (spans : list Span) :
  exists segs,
    merge_line page_num height width [] spans
    = map (segment_block page_num height width) segs
    /\ concat (map segment_spans segs) = List.filter kept spans
    /\ Forall uniform segs
    /\ head_boundaries segs.
Proof.
  unfold merge_line.
  change (match span_loop page_num height width [] None spans with
          | (pb, Some cur) => pb ++ [flush_current page_num height width cur]
          | (pb, None) => pb
          end)
    with (finish_line page_num height width
            (span_loop page_num height width [] None spans)).
  induction spans as [|span spans IH].
  - exists []. simpl. repeat split; constructor.
  - cbn [span_loop List.filter]. unfold kept at 1.
    destruct (String.eqb (Py.strip (s_text span)) "") eqn:Eb; cbn [negb].
    + exact IH.
    + change (new_current (Py.strip (s_text span)) span)
        with (current_of (span, [])).
      destruct (span_loop_segments spans span []) as (tl' & rest & H);
        [constructor|].
      now exists ((span, tl') :: rest).
Qed.





End RunMerger.



(** ** Noise filter *)

Section NoiseFilter.

Lemma bbox_in_any_iff (bbox : BBox) (bbox_list : list BBox) :
  bbox_in_any bbox bbox_list = true <->
  exists b, b ∈ bbox_list /\ bbox_intersect bbox b = true.
Proof.
  induction bbox_list as [|b rest IH]; simpl.
  - split; [discriminate|]. intros (b & Hb & _). now apply elem_of_nil in Hb.
  - destruct (bbox_intersect bbox b) eqn:E.
    + split; [intros _ | reflexivity]. exists b. split; [constructor | exact E].
    + rewrite IH. split.
      * intros (b' & Hb' & Hi). exists b'. split; [now constructor | exact Hi].
      * intros (b' & Hb' & Hi). apply elem_of_cons in Hb' as [-> | Hb'].
        -- congruence.
        -- now exists b'.
Qed.

Lemma filter_blocks_no_margin (idx : nat) (blocks : list Block)
    (tables : gmap nat (list BBox)) :
  filter_blocks idx blocks ∅ tables =
  List.filter (fun b => negb (block_in_tables (b_page b) (b_bbox b) tables))
              blocks.
Proof.
  revert idx. induction blocks as [|b rest IH]; intros idx; simpl.
  - reflexivity.
  - rewrite bool_decide_eq_true_2 by set_solver. simpl.
    now rewrite !IH.
Qed.

(** C8: [bbox_intersect] holds unless one box lies strictly beyond the other
    along x or along y, so boxes that only share an edge intersect; a block
    is in a table iff its box intersects a box registered for its page, and
    these are the blocks the table filter removes. *)
Theorem bbox_intersect_spec (b1 b2 : BBox) (page_num : nat)
    (tables : gmap nat (list BBox)) (blocks : list Block) :
  (bbox_intersect b1 b2 = true <->
     ~ (bx1 b1 < bx0 b2 \/ bx1 b2 < bx0 b1
        \/ by1 b1 < by0 b2 \/ by1 b2 < by0 b1))
  /\ bbox_intersect (mkBBox 0 0 10 10) (mkBBox 10 0 20 10) = true
  /\ (block_in_tables page_num b1 tables = true <->
        exists bbox_list b, tables !! page_num = Some bbox_list
          /\ b ∈ bbox_list /\ bbox_intersect b1 b = true)
  /\ filter_blocks 0 blocks ∅ tables =
     List.filter (fun b => negb (block_in_tables (b_page b) (b_bbox b) tables))
                 blocks.
Proof.
  split; [|split; [reflexivity | split]].
  - unfold bbox_intersect.
    rewrite negb_true_iff, !orb_false_iff, !Qltb_false_iff.
    split.
    + intros (((H1 & H2) & H3) & H4) [H | [H | [H | H]]]; lra.
    + intros H. repeat split; apply Qnot_lt_le; intros Hlt; apply H; tauto.
  - unfold block_in_tables. destruct (tables !! page_num) as [bbox_list|].
    + rewrite bbox_in_any_iff. split.
      * intros (b & Hb & Hi). now exists bbox_list, b.
      * intros (l & b & Hl & Hb & Hi). injection Hl as <-. now exists b.
    + split; [discriminate|]. intros (l & b & Hl & _). discriminate.
  - apply filter_blocks_no_margin.
Qed.

Lemma headers_footers_loop_spec (margin : Q) (blocks : list Block)
    (idx : nat) (headers footers : gset nat) (i : nat) :
  (i ∈ (headers_footers_loop margin idx blocks headers footers).1 <->
     i ∈ headers
     \/ exists j b, blocks !! j = Some b /\ i = (idx + j)%nat
          /\ header_test margin b = true)
  /\ (i ∈ (headers_footers_loop margin idx blocks headers footers).2 <->
     i ∈ footers
     \/ exists j b, blocks !! j = Some b /\ i = (idx + j)%nat
          /\ header_test margin b = false /\ footer_test margin b = true).
Proof.
  revert idx headers footers.
  induction blocks as [|b rest IH]; intros idx headers footers.
  - simpl. split; (split; [now left | intros [H | (j & b & H & _)]];
             [exact H | discriminate]).
  - assert (Hshift : forall (P : Block -> Prop),
              (exists j b', (b :: rest) !! j = Some b' /\ i = (idx + j)%nat /\ P b')
              <-> (i = idx /\ P b)
                  \/ exists j b', rest !! j = Some b' /\ i = (S idx + j)%nat /\ P b').
    { intros P. split.
      - intros ([|j] & b' & Hj & Hi & HP); simpl in Hj.
        + injection Hj as <-. left. split; [lia | exact HP].
        + right. exists j, b'. repeat split; [exact Hj | lia | exact HP].
      - intros [(Hi & HP) | (j & b' & Hj & Hi & HP)].
        + exists 0%nat, b. repeat split; [lia | exact HP].
        + exists (S j), b'. repeat split; [exact Hj | lia | exact HP]. }
    rewrite (Hshift (fun b => header_test margin b = true)).
    rewrite (Hshift (fun b => header_test margin b = false
                              /\ footer_test margin b = true)).
    simpl.
    destruct (header_test margin b) eqn:Eh;
      [|destruct (footer_test margin b) eqn:Ef].
    all: match goal with
         | |- context [headers_footers_loop _ _ _ ?hs ?fs] =>
             destruct (IH (S idx) hs fs) as [IH1 IH2]
         end.
    all: rewrite IH1, IH2, ?elem_of_union, ?elem_of_singleton.
    all: split; intuition (discriminate || auto).
Qed.



End NoiseFilter.



(** ** The pipeline of [main] *)

Section PipelineFacts.

Variable crop_and_ocr : nat -> BBox -> string.

Lemma source_candidate_found (candidates : list Block)
    (size_to_level : list (Q * string)) (c : Block) :
  c ∈ candidates ->
  is_Some (source_candidate candidates
             (make_heading crop_and_ocr size_to_level c)).
Proof.
  intros Hc. unfold source_candidate.
  destruct (List.find _ candidates) eqn:E; [eauto|].
  apply List.find_none with (x := c) in E; [|now apply list_elem_of_In].
  simpl in E. now rewrite String.eqb_refl, Nat.eqb_refl in E.
Qed.

(** The lookup inside the sort key never raises. *)
Lemma ordered_headings_total (candidates : list Block) :
  is_Some (ordered_headings crop_and_ocr candidates).
Proof.
  unfold ordered_headings, sort_headings.
  set (size_to_level := cluster_font_sizes candidates).
  assert (Hkeys : is_Some (mapM
            (fun h => heading_key candidates h ≫= fun k => Some (k, h))
            (map (make_heading crop_and_ocr size_to_level) candidates))).
  { apply mapM_is_Some, Forall_forall. intros h Hh.
    apply list_elem_of_fmap in Hh as (c & -> & Hc).
    unfold heading_key. simpl.
    destruct (source_candidate_found candidates size_to_level c Hc) as [c' ->].
    simpl. eauto. }
  destruct Hkeys as [keyed ->]. simpl. eauto.
Qed.

Lemma extract_headings_total (blocks : list Block) (title_text : string) :
  is_Some (extract_headings crop_and_ocr blocks title_text).
Proof.
  unfold extract_headings. destruct blocks as [|b rest]; [eauto|].
  destruct (heading_candidates (b :: rest) title_text) as [|c cs]; [eauto|].
  destruct (ordered_headings_total (c :: cs)) as [hs ->]. simpl. eauto.
Qed.

Lemma reading_lt_false_iff (a b : Block) :
  reading_lt b a = false <-> reading_le a b.
Proof.
  unfold reading_lt, heading_key_lt, reading_le. simpl.
  destruct (Nat.eqb_spec (b_page b) (b_page a)) as [Ep | Ep]; cbn [negb].
  - rewrite Qltb_false_iff. split; [intros H; right; now split|].
    intros [H | [_ H]]; [lia | exact H].
  - rewrite Nat.ltb_ge. split; [intros H; left; lia|].
    intros [H | [H _]]; [lia | congruence].
Qed.

Lemma reading_lt_asym (a b : Block) :
  reading_lt a b = true -> reading_lt b a = false.
Proof.
  intros H. apply reading_lt_false_iff.
  destruct (reading_lt b a) eqn:E; [|now apply reading_lt_false_iff in E].
  exfalso. revert H E. unfold reading_lt, heading_key_lt. simpl.
  rewrite (Nat.eqb_sym (b_page b)).
  destruct (Nat.eqb (b_page a) (b_page b)); cbn [negb].
  - rewrite !Qltb_true_iff. lra.
  - rewrite !Nat.ltb_lt. lia.
Qed.

Lemma reading_le_trans (a b c : Block) :
  reading_lt b a = false -> reading_lt c b = false -> reading_lt c a = false.
Proof.
  rewrite !reading_lt_false_iff. unfold reading_le.
  intros [H1 | [H1 H1']] [H2 | [H2 H2']];
    try (left; lia). right. split; [lia | lra].
Qed.

(** X9: where no two candidates share text and page, every heading is keyed
    by its own candidate and the headings come out in reading order: they
    are the headings of a rearrangement of the candidates that is sorted by
    page and then by top edge. *)
Lemma ordered_headings_reading_order (candidates : list Block) :
  (forall i j ci cj,
     candidates !! i = Some ci -> candidates !! j = Some cj ->
     b_text ci = b_text cj -> b_page ci = b_page cj -> i = j) ->
  exists cs,
    cs ≡ₚ candidates
    /\ StronglySorted reading_le cs
    /\ ordered_headings crop_and_ocr candidates
       = Some (map (make_heading crop_and_ocr (cluster_font_sizes candidates)) cs).
Proof.
  intros Huniq. exists (Py.sorted reading_lt candidates).
  split; [apply sorted_perm | split].
  - pose proof (sorted_StronglySorted reading_lt reading_lt_asym
                  reading_le_trans candidates) as Hs.
    induction Hs as [|x l Hl IH Hx]; constructor; [exact IH|].
    eapply Forall_impl; [exact Hx|]. intros y Hy.
    now apply reading_lt_false_iff.
  - unfold ordered_headings, sort_headings.
    set (size_to_level := cluster_font_sizes candidates).
    set (decorate := fun c => ((b_page c, by0 (b_bbox c)),
                               make_heading crop_and_ocr size_to_level c)).
    assert (Hkeys : mapM
              (fun h => heading_key candidates h ≫= fun k => Some (k, h))
              (map (make_heading crop_and_ocr size_to_level) candidates)
              = Some (map decorate candidates)).
    { apply mapM_Some, Forall2_fmap, Forall_Forall2_diag, Forall_forall.
      intros c Hc. unfold heading_key.
      destruct (source_candidate_found candidates size_to_level c Hc)
        as [c' Hc'].
      rewrite Hc'. simpl.
      assert (c' = c) as ->; [|reflexivity].
      unfold source_candidate in Hc'. apply List.find_some in Hc' as [Hin Hm].
      simpl in Hm. apply andb_prop in Hm as [Ht Hp].
      apply String.eqb_eq in Ht. apply Nat.eqb_eq in Hp.
      apply list_elem_of_In, list_elem_of_lookup in Hin as (i' & Hi').
      apply list_elem_of_lookup in Hc as (i & Hi).
      assert (i' = i) by now apply (Huniq i' i c' c).
      subst i'. congruence. }
    rewrite Hkeys. simpl.
    rewrite (sorted_map decorate), map_map. reflexivity.
Qed.

(** C5, amended: [main] selects the title from all parsed blocks, before and
    independently of the noise filter; the filtered sequence is the input of
    the heading classifier only. *)
Theorem main_title_from_all_blocks (blocks : list Block)
    (tables tables' : gmap nat (list BBox)) :
  let title := extract_title crop_and_ocr blocks in
  let hf := remove_headers_footers blocks 0.1 in
  let filtered_blocks := filter_blocks 0 blocks (hf.1 ∪ hf.2) tables in
  (exists headings,
     extract_headings crop_and_ocr filtered_blocks title.1 = Some headings
     /\ main_from crop_and_ocr blocks tables
        = Some {| o_title := or_else title.2 title.1;
                  o_outline := map (outline_entry) headings |})
  /\ o_title <$> main_from crop_and_ocr blocks tables
     = o_title <$> main_from crop_and_ocr blocks tables'.
Proof.
  intros title hf filtered_blocks.
  assert (Hmain : forall tbl,
    exists headings,
      extract_headings crop_and_ocr
        (filter_blocks 0 blocks (hf.1 ∪ hf.2) tbl) title.1 = Some headings
      /\ main_from crop_and_ocr blocks tbl
         = Some {| o_title := or_else title.2 title.1;
                   o_outline := map (outline_entry) headings |}).
  { intros tbl. unfold main_from. fold title. fold hf.
    destruct title as [title_text title_ocr]. destruct hf as [hs fs]. simpl.
    destruct (extract_headings_total
                (filter_blocks 0 blocks (hs ∪ fs) tbl) title_text)
      as [headings Hh].
    exists headings. split; [exact Hh|]. now rewrite Hh. }
  split; [apply Hmain|].
  destruct (Hmain tables) as (h1 & _ & ->).
  destruct (Hmain tables') as (h2 & _ & ->). reflexivity.
Qed.

End PipelineFacts.

(** C5 as stated fails: the running header of the sample is removed by the
    noise filter, and [main] still returns its text as the title. *)
Lemma main_title_filtered_counterexample :
  0%nat ∈ (remove_headers_footers (running_header :: sample_blocks) 0.1).1
  /\ filter_blocks 0 (running_header :: sample_blocks)
       ((remove_headers_footers (running_header :: sample_blocks) 0.1).1
        ∪ (remove_headers_footers (running_header :: sample_blocks) 0.1).2) ∅
     = sample_blocks
  /\ o_title <$> main_from no_ocr (running_header :: sample_blocks) ∅
     = Some (b_text running_header)
  /\ (extract_title no_ocr sample_blocks).1 = "Report Title".
Proof.
  split; [|split; [|split]].
  - apply (bool_decide_unpack _). vm_compute. exact I.
  - vm_compute. reflexivity.
  - vm_compute. reflexivity.
  - vm_compute. reflexivity.
Qed.

(** C6: on a page that repeats the heading "Example" at 100 and at 500 with
    "Remarks" at 300 between them, the candidates are in reading order and
    the sorted headings are not: the second "Example" (recognised in the
    lower half) comes before "Remarks". *)
Theorem extract_headings_repeated_text :
  map (fun c => (b_text c, b_page c, by0 (b_bbox c)))
      (heading_candidates repeated_heading_blocks "Report Title")
  = [("Example", 1%nat, 100); ("Remarks", 1%nat, 300); ("Example", 1%nat, 500)]
  /\ extract_headings ocr_by_top repeated_heading_blocks "Report Title"
     = Some [ mkHeading "H1" "Example" 1 "upper half";
              mkHeading "H1" "Example" 1 "lower half";
              mkHeading "H1" "Remarks" 1 "upper half" ].
Proof. split; vm_compute; reflexivity. Qed.

(** The two-page report: parsing merges the runs of the title and the lines
    of the body, the title is the size-24 block and the outline has the one
    size-16 heading, on page 2. *)
Example main_report :
  main no_ocr report_pages
  = Some {| o_title := "Report Title";
            o_outline := [ {| e_level := "H1"; e_text := "1. Introduction";
                              e_page := 2 |} ] |}.
Proof. vm_compute. reflexivity. Qed.

(** * Further properties *)

(** ** Level labels *)

Section LevelLabels.

Lemma rstrip_digits (d : Decimal.uint) :
  Py.rstrip (NilEmpty.string_of_uint d) = NilEmpty.string_of_uint d.
Proof.
  induction d; cbn [NilEmpty.string_of_uint]; [reflexivity|..];
    rewrite rstrip_cons, IHd, andb_false_r; reflexivity.
Qed.

Lemma strip_digits (d : Decimal.uint) :
  Py.strip (NilEmpty.string_of_uint d) = NilEmpty.string_of_uint d.
Proof.
  unfold Py.strip. rewrite rstrip_digits. destruct d; reflexivity.
Qed.

Lemma int_digits_of_uint (d : Decimal.uint) (acc : nat) (after_digit : bool) :
  d <> Decimal.Nil \/ after_digit = true ->
  Py.int_digits (Z.of_nat acc) after_digit (NilEmpty.string_of_uint d)
  = Some (Z.of_nat (Nat.of_uint_acc d acc)).
Proof.
  revert acc after_digit.
  induction d; intros acc after_digit Hd;
    cbn [NilEmpty.string_of_uint Nat.of_uint_acc].
  1: { destruct Hd as [Hd | ->]; [congruence | reflexivity]. }
  all: cbn [Py.int_digits]; cbv [Py.digit_val]; simpl.
  all: rewrite <- (IHd _ true) by now right.
  all: f_equal; rewrite Nat.tail_mul_spec; lia.
Qed.

Lemma to_uint_not_nil (n : nat) : Nat.to_uint n <> Decimal.Nil.
Proof.
  intros H. pose proof (Unsigned.of_to n) as Hn. rewrite H in Hn.
  cbn in Hn. subst n. discriminate.
Qed.

(** [int(str(n)) == n]. *)
Lemma int_str_of_nat (n : nat) : Py.int (Py.str_of_nat n) = Some (Z.of_nat n).
Proof.
  unfold Py.int, Py.str_of_nat. rewrite strip_digits.
  pose proof (int_digits_of_uint (Nat.to_uint n) 0 false
                (or_introl (to_uint_not_nil n))) as H.
  fold (Nat.of_uint (Nat.to_uint n)) in H. rewrite Unsigned.of_to in H.
  change (Z.of_nat 0) with 0%Z in H.
  destruct (Nat.to_uint n); exact H.
Qed.

Lemma heading_level_number_H (s : string) :
  heading_level_number (String "H" s) = Py.int s.
Proof.
  unfold heading_level_number. cbn [Py.upper Py.startswith].
  change (Ascii.eqb "H" (Py.upper_char "H")) with true. cbn [andb].
  now destruct (Py.upper s).
Qed.

(** X1: the label that [cluster_font_sizes] writes for rank [i] (from 0) is
    read back by [heading_level_number] as the level [i + 1]; so is the
    default label "H3" as 3. *)
Theorem heading_level_number_label (i : nat) :
  heading_level_number ("H" +:+ Py.str_of_nat (i + 1)) = Some (Z.of_nat i + 1)%Z
  /\ heading_level_number "H3" = Some 3%Z.
Proof.
  split; [|reflexivity].
  change ("H" +:+ Py.str_of_nat (i + 1))
    with (String "H" (Py.str_of_nat (i + 1))).
  rewrite heading_level_number_H, int_str_of_nat. f_equal. lia.
Qed.

End LevelLabels.

(** ** Heading classifier: further properties *)

Section HeadingFacts.

Variable crop_and_ocr : nat -> BBox -> string.

Lemma StronglySorted_lookup_lt {A : Type} (R : A -> A -> Prop) (l : list A)
    (i j : nat) (a b : A) :
  StronglySorted R l -> l !! i = Some a -> l !! j = Some b -> (i < j)%nat ->
  R a b.
Proof.
  intros Hs. revert i j. induction Hs as [|x l Hl IH Hx]; intros i j Hi Hj Hlt.
  - discriminate.
  - destruct j as [|j]; [lia|]. simpl in Hj. destruct i as [|i]; simpl in Hi.
    + injection Hi as <-. rewrite Forall_forall in Hx. apply Hx.
      apply list_elem_of_lookup. now exists j.
    + apply (IH i j); [assumption.. | lia].
Qed.

Lemma cluster_sizes_descending (candidates : list Block) :
  StronglySorted (fun a b => b < a) (cluster_sizes candidates).
Proof.
  apply descending_strict; [apply cluster_sizes_distinct|].
  apply (sorted_StronglySorted (fun a b => Py.Qltb b a)).
  - intros a b. apply size_order_asym.
  - intros a b c. apply size_order_trans.
Qed.

Lemma candidate_level (candidates : list Block) (c : Block) :
  c ∈ candidates ->
  exists k s, cluster_sizes candidates !! k = Some s /\ s == b_size c
    /\ h_level (make_heading crop_and_ocr (cluster_font_sizes candidates) c)
       = "H" +:+ Py.str_of_nat (k + 1).
Proof.
  intros Hc.
  destruct (cluster_sizes_complete candidates c Hc) as (k & s & Hk & Hs).
  exists k, s. split; [exact Hk | split; [exact Hs|]].
  unfold make_heading, cluster_font_sizes. cbn [h_level].
  now rewrite (cluster_loop_rank (b_size c) s 0 k _ []
                 (cluster_sizes_distinct candidates) Hk Hs).
Qed.

Lemma heading_candidates_elem (blocks : list Block) (title_text : string)
    (b : Block) :
  b ∈ heading_candidates blocks title_text ->
  exists i, blocks !! i = Some b
    /\ candidate_test (length blocks) (heading_threshold blocks) title_text i b
       = true.
Proof.
  unfold heading_candidates. rewrite candidates_loop_filter. simpl.
  intros Hb. apply list_elem_of_fmap in Hb as ([i b'] & -> & Hin).
  apply list_elem_of_In, filter_In in Hin as [Hin Ht].
  apply list_elem_of_In, elem_of_lookup_imap in Hin as (j & y & Heq & Hj).
  injection Heq as -> ->. now exists j.
Qed.

Lemma keyed_headings (candidates : list Block) (headings : list Heading)
    (keyed : list (nat * Q * Heading)) :
  mapM (fun h => heading_key candidates h ≫= fun k => Some (k, h)) headings
  = Some keyed ->
  map snd keyed = headings.
Proof.
  intros H. apply mapM_Some in H.
  induction H as [|h kh hs khs Hh _ IH]; [reflexivity|].
  simpl. rewrite IH. f_equal.
  destruct (heading_key candidates h); simpl in Hh; [|discriminate].
  now injection Hh as <-.
Qed.

Lemma sort_headings_perm (candidates : list Block)
    (headings sorted : list Heading) :
  sort_headings candidates headings = Some sorted -> sorted ≡ₚ headings.
Proof.
  unfold sort_headings. intros H.
  destruct (mapM _ headings) as [keyed|] eqn:E; [|discriminate].
  simpl in H. injection H as <-.
  rewrite sorted_perm. now rewrite (keyed_headings candidates headings keyed E).
Qed.

Lemma extract_headings_elem (blocks : list Block) (title_text : string)
    (headings : list Heading) (h : Heading) :
  extract_headings crop_and_ocr blocks title_text = Some headings ->
  h ∈ headings ->
  exists c, c ∈ heading_candidates blocks title_text
    /\ h = make_heading crop_and_ocr
             (cluster_font_sizes (heading_candidates blocks title_text)) c.
Proof.
  unfold extract_headings. intros He Hh.
  destruct blocks as [|b0 rest];
    [injection He as <-; now apply elem_of_nil in Hh|].
  destruct (heading_candidates (b0 :: rest) title_text) as [|c0 cs] eqn:Ec;
    [injection He as <-; now apply elem_of_nil in Hh|].
  destruct (ordered_headings crop_and_ocr (c0 :: cs)) as [sorted|] eqn:Eo;
    [|discriminate].
  simpl in He. injection He as <-.
  unfold hierarchy_pass in Hh.
  pose proof (hierarchy_loop_sublist None sorted) as Hsub.
  apply (elem_of_sublist _ _ h Hh) in Hsub.
  apply sort_headings_perm in Eo. rewrite Eo in Hsub.
  apply list_elem_of_fmap in Hsub as (c & -> & Hc). now exists c.
Qed.

(** X2: among the candidates a larger font size gets a smaller level number:
    the levels of the headings of two candidates are numeric, at least 1, and
    ordered against the sizes. *)
Theorem cluster_levels_monotone (candidates : list Block) (c1 c2 : Block) :
  c1 ∈ candidates -> c2 ∈ candidates -> b_size c2 < b_size c1 ->
  exists n1 n2,
    heading_level_number
      (h_level (make_heading crop_and_ocr (cluster_font_sizes candidates) c1))
    = Some n1
    /\ heading_level_number
         (h_level (make_heading crop_and_ocr (cluster_font_sizes candidates) c2))
       = Some n2
    /\ (1 <= n1 < n2)%Z.
Proof.
  intros H1 H2 Hlt.
  destruct (candidate_level candidates c1 H1) as (k1 & s1 & Hk1 & Hs1 & ->).
  destruct (candidate_level candidates c2 H2) as (k2 & s2 & Hk2 & Hs2 & ->).
  change ("H" +:+ Py.str_of_nat (k1 + 1)) with (String "H" (Py.str_of_nat (k1 + 1))).
  change ("H" +:+ Py.str_of_nat (k2 + 1)) with (String "H" (Py.str_of_nat (k2 + 1))).
  rewrite !heading_level_number_H, !int_str_of_nat.
  exists (Z.of_nat (k1 + 1)), (Z.of_nat (k2 + 1)).
  split; [reflexivity | split; [reflexivity|]].
  assert (k1 < k2)%nat; [|lia].
  pose proof (cluster_sizes_descending candidates) as Hs.
  destruct (Nat.lt_trichotomy k1 k2) as [Hk | [-> | Hk]]; [exact Hk | |].
  - exfalso. rewrite Hk1 in Hk2. injection Hk2 as <-.
    clear -Hlt Hs1 Hs2. lra.
  - exfalso.
    pose proof (StronglySorted_lookup_lt _ _ k2 k1 s2 s1 Hs Hk2 Hk1 Hk) as Hd.
    simpl in Hd. clear -Hlt Hs1 Hs2 Hd. lra.
Qed.

End HeadingFacts.

Lemma cluster_levels_monotone_witness :
  sample_block "Report Title" 24 0 100 ∈ sample_blocks
  /\ sample_intro ∈ sample_blocks
  /\ b_size sample_intro < b_size (sample_block "Report Title" 24 0 100)
  /\ exists n1 n2,
       heading_level_number
         (h_level (make_heading no_ocr (cluster_font_sizes sample_blocks)
                     (sample_block "Report Title" 24 0 100)))
       = Some n1
       /\ heading_level_number
            (h_level (make_heading no_ocr (cluster_font_sizes sample_blocks)
                        sample_intro))
          = Some n2
       /\ (1 <= n1 < n2)%Z.
Proof.
  assert (H1 : sample_block "Report Title" 24 0 100 ∈ sample_blocks)
    by (apply list_elem_of_lookup; now exists 0%nat).
  assert (H2 : sample_intro ∈ sample_blocks)
    by (apply list_elem_of_lookup; now exists 2%nat).
  assert (H3 : b_size sample_intro < b_size (sample_block "Report Title" 24 0 100))
    by reflexivity.
  split; [exact H1 | split; [exact H2 | split; [exact H3|]]].
  exact (cluster_levels_monotone no_ocr sample_blocks _ _ H1 H2 H3).
Defined.

Section HierarchyFacts.

Lemma hierarchy_loop_rerun (last : option Z) (headings : list Heading) :
  hierarchy_loop [] last (hierarchy_loop [] last headings).1
  = hierarchy_loop [] last headings.
Proof.
  revert last. induction headings as [|h rest IH]; intros last; [reflexivity|].
  cbn [hierarchy_loop].
  destruct (heading_level_number (h_level h)) as [lvl|] eqn:El.
  - destruct (match last with
              | Some last0 => (lvl <=? last0 + 1)%Z
              | None => true
              end) eqn:Ea.
    + rewrite (hierarchy_loop_acc ([] ++ [h])). cbn [fst snd app].
      cbn [hierarchy_loop]. rewrite El, Ea.
      rewrite (hierarchy_loop_acc ([] ++ [h])), IH. reflexivity.
    + apply IH.
  - rewrite (hierarchy_loop_acc ([] ++ [h])). cbn [fst snd app].
    cbn [hierarchy_loop]. rewrite El.
    rewrite (hierarchy_loop_acc ([] ++ [h])), IH. reflexivity.
Qed.

(** X3: the hierarchy pass is idempotent: passing its own output again drops
    nothing more. *)
Theorem hierarchy_pass_idempotent (headings : list Heading) :
  hierarchy_pass (hierarchy_pass headings) = hierarchy_pass headings.
Proof. unfold hierarchy_pass. now rewrite hierarchy_loop_rerun. Qed.

Lemma hierarchy_loop_steps (last : option Z) (headings : list Heading) :
  steps_ok last (numeric_levels (hierarchy_loop [] last headings).1).
Proof.
  revert last. induction headings as [|h rest IH]; intros last; [exact I|].
  cbn [hierarchy_loop].
  destruct (heading_level_number (h_level h)) as [lvl|] eqn:El.
  - destruct (match last with
              | Some last0 => (lvl <=? last0 + 1)%Z
              | None => true
              end) eqn:Ea.
    + rewrite (hierarchy_loop_acc ([] ++ [h])). cbn [fst snd app].
      unfold numeric_levels. cbn [omap list_omap]. rewrite El.
      split; [|apply IH].
      destruct last as [p|]; [now apply Z.leb_le | exact I].
    + apply IH.
  - rewrite (hierarchy_loop_acc ([] ++ [h])). cbn [fst snd app].
    unfold numeric_levels. cbn [omap list_omap]. rewrite El. apply IH.
Qed.

Lemma steps_ok_lookup (last : option Z) (levels : list Z) (i : nat) (a b : Z) :
  steps_ok last levels -> levels !! i = Some a -> levels !! S i = Some b ->
  (b <= a + 1)%Z.
Proof.
  revert last i. induction levels as [|l rest IH]; intros last i Hs Ha Hb.
  - discriminate.
  - destruct Hs as [_ Hs]. destruct i as [|i]; simpl in Ha, Hb.
    + injection Ha as <-. destruct rest as [|l' rest']; [discriminate|].
      simpl in Hb. injection Hb as <-. now destruct Hs.
    + apply (IH (Some l) i Hs Ha Hb).
Qed.

(** X4: in the output of the hierarchy pass the numeric levels never deepen
    by more than one from a heading to the next numeric one, whatever the
    input. *)
Theorem hierarchy_pass_consistent (headings : list Heading) (i : nat)
    (a b : Z) :
  numeric_levels (hierarchy_pass headings) !! i = Some a ->
  numeric_levels (hierarchy_pass headings) !! S i = Some b ->
  (b <= a + 1)%Z.
Proof.
  apply (steps_ok_lookup None), hierarchy_loop_steps.
Qed.

End HierarchyFacts.

Lemma hierarchy_pass_consistent_witness :
  numeric_levels
    (hierarchy_pass [sample_heading "H1"; sample_heading "H3";
                     sample_heading "H2"; sample_heading "H4";
                     sample_heading "H3"]) !! 1%nat = Some 2%Z
  /\ numeric_levels
       (hierarchy_pass [sample_heading "H1"; sample_heading "H3";
                        sample_heading "H2"; sample_heading "H4";
                        sample_heading "H3"]) !! 2%nat = Some 3%Z
  /\ (3 <= 2 + 1)%Z.
Proof.
  assert (H1 : numeric_levels
    (hierarchy_pass [sample_heading "H1"; sample_heading "H3";
                     sample_heading "H2"; sample_heading "H4";
                     sample_heading "H3"]) !! 1%nat = Some 2%Z) by reflexivity.
  assert (H2 : numeric_levels
    (hierarchy_pass [sample_heading "H1"; sample_heading "H3";
                     sample_heading "H2"; sample_heading "H4";
                     sample_heading "H3"]) !! 2%nat = Some 3%Z) by reflexivity.
  split; [exact H1 | split; [exact H2|]].
  exact (hierarchy_pass_consistent _ 1 2%Z 3%Z H1 H2).
Defined.

Section ExtractFacts.

Variable crop_and_ocr : nat -> BBox -> string.









End ExtractFacts.




Lemma ordered_headings_reading_order_witness :
  (forall i j ci cj,
     [sample_block "Remarks" 16 1 300; sample_block "Example" 16 1 100] !! i
     = Some ci ->
     [sample_block "Remarks" 16 1 300; sample_block "Example" 16 1 100] !! j
     = Some cj ->
     b_text ci = b_text cj -> b_page ci = b_page cj -> i = j)
  /\ exists cs,
       cs ≡ₚ [sample_block "Remarks" 16 1 300; sample_block "Example" 16 1 100]
       /\ StronglySorted reading_le cs
       /\ ordered_headings no_ocr
            [sample_block "Remarks" 16 1 300; sample_block "Example" 16 1 100]
          = Some (map (make_heading no_ocr
                         (cluster_font_sizes
                            [sample_block "Remarks" 16 1 300;
                             sample_block "Example" 16 1 100])) cs).
Proof.
  assert (H : forall i j ci cj,
     [sample_block "Remarks" 16 1 300; sample_block "Example" 16 1 100] !! i
     = Some ci ->
     [sample_block "Remarks" 16 1 300; sample_block "Example" 16 1 100] !! j
     = Some cj ->
     b_text ci = b_text cj -> b_page ci = b_page cj -> i = j).
  { intros [|[|i]] [|[|j]] ci cj Hi Hj Ht _; simpl in Hi, Hj;
      try discriminate; try reflexivity;
      injection Hi as <-; injection Hj as <-; discriminate. }
  split; [exact H|].
  exact (ordered_headings_reading_order no_ocr _ H).
Defined.

(** ** Boxes and noise filter: further properties *)

Section BoxFacts.

Lemma bbox_intersect_iff (b1 b2 : BBox) :
  bbox_intersect b1 b2 = true <->
  bx0 b2 <= bx1 b1 /\ bx0 b1 <= bx1 b2 /\ by0 b2 <= by1 b1 /\ by0 b1 <= by1 b2.
Proof.
  unfold bbox_intersect.
  rewrite negb_true_iff, !orb_false_iff, !Qltb_false_iff. tauto.
Qed.

(** X10: merging never loses an overlap: a box that intersects one of the
    merged boxes intersects the merged box. *)
Theorem merge_bboxes_intersect (first : BBox) (rest : list BBox) (b t : BBox) :
  b ∈ first :: rest -> bbox_intersect b t = true ->
  bbox_intersect (merge_bboxes first rest) t = true.
Proof.
  intros Hb. rewrite !bbox_intersect_iff. unfold merge_bboxes. cbn.
  destruct (min_of_least (bx0 first) (map bx0 rest)) as [_ Hx0].
  destruct (min_of_least (by0 first) (map by0 rest)) as [_ Hy0].
  destruct (max_of_greatest (bx1 first) (map bx1 rest)) as [_ Hx1].
  destruct (max_of_greatest (by1 first) (map by1 rest)) as [_ Hy1].
  specialize (Hx0 (bx0 b) (list_elem_of_fmap_2 bx0 (first :: rest) b Hb)).
  specialize (Hy0 (by0 b) (list_elem_of_fmap_2 by0 (first :: rest) b Hb)).
  specialize (Hx1 (bx1 b) (list_elem_of_fmap_2 bx1 (first :: rest) b Hb)).
  specialize (Hy1 (by1 b) (list_elem_of_fmap_2 by1 (first :: rest) b Hb)).
  intros (H1 & H2 & H3 & H4). repeat split; lra.
Qed.

(** X11: [bbox_intersect] does not depend on the order of its arguments, and
    a box intersects itself exactly when it is well formed. *)
Theorem bbox_intersect_sym (b1 b2 : BBox) :
  bbox_intersect b1 b2 = bbox_intersect b2 b1
  /\ (bbox_intersect b1 b1 = true <-> well_formed b1).
Proof.
  split.
  - destruct (bbox_intersect b1 b2) eqn:E1, (bbox_intersect b2 b1) eqn:E2;
      try reflexivity.
    + apply bbox_intersect_iff in E1. apply not_true_iff_false in E2.
      exfalso. apply E2, bbox_intersect_iff. tauto.
    + apply bbox_intersect_iff in E2. apply not_true_iff_false in E1.
      exfalso. apply E1, bbox_intersect_iff. tauto.
  - rewrite bbox_intersect_iff. unfold well_formed. tauto.
Qed.

Lemma empty_tables_lookup (pages : list nat) (p : nat) :
  (list_to_map (map (fun page_num => (page_num, @nil BBox)) pages)
     : gmap nat (list BBox)) !! p
  = if decide (p ∈ pages) then Some [] else None.
Proof.
  induction pages as [|x pages IH]; cbn [map list_to_map foldr].
  - rewrite lookup_empty. destruct (decide (p ∈ [])) as [H | _];
      [now apply elem_of_nil in H | reflexivity].
  - cbn [fst snd]. rewrite lookup_insert, IH.
    destruct (decide (x = p)) as [-> | Hne].
    + destruct (decide (p ∈ p :: pages)) as [_ | H];
        [reflexivity | exfalso; apply H; constructor].
    + destruct (decide (p ∈ pages)) as [Hin | Hnin];
        destruct (decide (p ∈ x :: pages)) as [Hin' | Hnin'];
        try reflexivity.
      * exfalso. apply Hnin'. now constructor.
      * exfalso. apply elem_of_cons in Hin' as [-> | H]; congruence.
Qed.

Lemma filter_blocks_ext (idx : nat) (blocks : list Block) (combined : gset nat)
    (t1 t2 : gmap nat (list BBox)) :
  (forall p bbox, block_in_tables p bbox t1 = block_in_tables p bbox t2) ->
  filter_blocks idx blocks combined t1 = filter_blocks idx blocks combined t2.
Proof.
  intros H. revert idx. induction blocks as [|b rest IH]; intros idx; simpl.
  - reflexivity.
  - now rewrite H, !IH.
Qed.

(** X12: [get_tables_bboxes] registers the empty list for every page of the
    document and nothing else, so no block is ever in a table and the table
    condition of [main] removes nothing. *)
Theorem get_tables_bboxes_empty (doc : list Page) (p idx : nat) (bbox : BBox)
    (blocks : list Block) (combined : gset nat) :
  get_tables_bboxes doc !! p
  = (if decide (p < length doc)%nat then Some [] else None)
  /\ block_in_tables p bbox (get_tables_bboxes doc) = false
  /\ filter_blocks idx blocks combined (get_tables_bboxes doc)
     = filter_blocks idx blocks combined ∅.
Proof.
  assert (Hl : forall q, get_tables_bboxes doc !! q
                 = if decide (q < length doc)%nat then Some [] else None).
  { intros q. unfold get_tables_bboxes. rewrite empty_tables_lookup.
    destruct (decide (q ∈ seq 0 (length doc))) as [Hin | Hnin];
      rewrite elem_of_seq in *.
    - rewrite decide_True; [reflexivity | lia].
    - rewrite decide_False; [reflexivity | lia]. }
  assert (Hf : forall q bb, block_in_tables q bb (get_tables_bboxes doc) = false).
  { intros q bb. unfold block_in_tables. rewrite Hl.
    now destruct (decide (q < length doc)%nat). }
  split; [apply Hl | split; [apply Hf|]].
  apply filter_blocks_ext. intros q bb. rewrite Hf.
  unfold block_in_tables. now rewrite lookup_empty.
Qed.

(** X13: no position is marked both header and footer, and only positions of
    the given list are marked. *)
Theorem remove_headers_footers_disjoint (blocks : list Block) (m : Q)
    (i : nat) :
  let hf := remove_headers_footers blocks m in
  ~ (i ∈ hf.1 /\ i ∈ hf.2)
  /\ (i ∈ hf.1 ∪ hf.2 -> (i < length blocks)%nat).
Proof.
  intros hf.
  destruct (headers_footers_loop_spec m blocks 0 ∅ ∅ i) as [Hh Hf].
  fold (remove_headers_footers blocks m) in Hh, Hf. fold hf in Hh, Hf.
  split.
  - intros [H1 H2]. apply Hh in H1. apply Hf in H2.
    destruct H1 as [H1 | (j & b & Hj & -> & Ht)];
      [now apply elem_of_empty in H1|].
    destruct H2 as [H2 | (j' & b' & Hj' & Heq & Hn & _)];
      [now apply elem_of_empty in H2|].
    simpl in Heq. subst j'. rewrite Hj in Hj'. injection Hj' as <-. congruence.
  - rewrite elem_of_union, Hh, Hf.
    intros [[H | (j & b & Hj & -> & _)] | [H | (j & b & Hj & -> & _)]];
      try (now apply elem_of_empty in H);
      apply lookup_lt_Some in Hj; simpl; lia.
Qed.

Lemma filter_blocks_sublist_from (idx : nat) (blocks : list Block)
    (combined : gset nat) (tables : gmap nat (list BBox)) :
  sublist (filter_blocks idx blocks combined tables) blocks.
Proof.
  revert idx. induction blocks as [|b rest IH]; intros idx; simpl.
  - constructor.
  - destruct (_ && _); [constructor; apply IH | apply sublist_cons, IH].
Qed.

Lemma filter_blocks_elem (idx : nat) (blocks : list Block)
    (combined : gset nat) (tables : gmap nat (list BBox)) (b : Block) :
  b ∈ filter_blocks idx blocks combined tables ->
  exists i, blocks !! i = Some b /\ ((idx + i)%nat ∉ combined)
    /\ block_in_tables (b_page b) (b_bbox b) tables = false.
Proof.
  revert idx. induction blocks as [|x rest IH]; intros idx Hb; simpl in Hb.
  - now apply elem_of_nil in Hb.
  - destruct (bool_decide (idx ∉ combined)
              && negb (block_in_tables (b_page x) (b_bbox x) tables)) eqn:E.
    + apply elem_of_cons in Hb as [-> | Hb].
      * apply andb_prop in E as [E1 E2]. exists 0%nat.
        split; [reflexivity|]. rewrite Nat.add_0_r.
        split; [now apply bool_decide_eq_true in E1 | now apply negb_true_iff].
      * destruct (IH (S idx) Hb) as (i & Hi & Hn & Ht).
        exists (S i). split; [exact Hi|].
        now replace (idx + S i)%nat with (S idx + i)%nat by lia.
    + destruct (IH (S idx) Hb) as (i & Hi & Hn & Ht).
      exists (S i). split; [exact Hi|].
      now replace (idx + S i)%nat with (S idx + i)%nat by lia.
Qed.

(** X14: the filtered sequence of [main] is a subsequence of the blocks, in
    their order, and every block in it sits at an unmarked position and is
    in no table. *)
Theorem filter_blocks_sound (blocks : list Block) (combined : gset nat)
    (tables : gmap nat (list BBox)) (b : Block) :
  sublist (filter_blocks 0 blocks combined tables) blocks
  /\ (b ∈ filter_blocks 0 blocks combined tables ->
      exists i, blocks !! i = Some b /\ (i ∉ combined)
        /\ block_in_tables (b_page b) (b_bbox b) tables = false).
Proof.
  split; [apply filter_blocks_sublist_from|].
  intros Hb. now apply filter_blocks_elem in Hb.
Qed.

End BoxFacts.

Lemma merge_bboxes_intersect_witness :
  mkBBox 30 0 40 10 ∈ [mkBBox 0 0 10 10; mkBBox 30 0 40 10]
  /\ bbox_intersect (mkBBox 30 0 40 10) (mkBBox 35 5 50 20) = true
  /\ bbox_intersect (merge_bboxes (mkBBox 0 0 10 10) [mkBBox 30 0 40 10])
       (mkBBox 35 5 50 20) = true.
Proof.
  assert (H1 : mkBBox 30 0 40 10 ∈ [mkBBox 0 0 10 10; mkBBox 30 0 40 10])
    by (right; left).
  assert (H2 : bbox_intersect (mkBBox 30 0 40 10) (mkBBox 35 5 50 20) = true)
    by reflexivity.
  split; [exact H1 | split; [exact H2|]].
  exact (merge_bboxes_intersect _ _ _ _ H1 H2).
Defined.

(** ** Block merger and parser: further properties *)

Section ParseFacts.

Lemma append_cons (c : ascii) (a b : string) :
  String c a +:+ b = String c (a +:+ b).
Proof. reflexivity. Qed.

Lemma lstrip_length (s : string) :
  (String.length (Py.lstrip s) <= String.length s)%nat.
Proof.
  induction s as [|c s IH]; simpl; [lia|].
  destruct (Py.is_space c); simpl; lia.
Qed.

Lemma lstrip_append (a y : string) :
  Py.lstrip a = a -> a <> "" -> Py.lstrip (a +:+ y) = a +:+ y.
Proof.
  destruct a as [|c a]; [congruence|]. intros H _. rewrite append_cons.
  cbn [Py.lstrip] in *. destruct (Py.is_space c); [|reflexivity].
  exfalso. pose proof (lstrip_length a) as Hl. rewrite H in Hl. simpl in Hl. lia.
Qed.

Lemma rstrip_append (y b : string) :
  Py.rstrip b = b -> b <> "" -> Py.rstrip (y +:+ b) = y +:+ b.
Proof.
  intros Hb Hne. induction y as [|c y IH]; [exact Hb|].
  rewrite append_cons, rstrip_cons, IH.
  destruct (String.eqb_spec (y +:+ b) "") as [He | _]; [|reflexivity].
  exfalso. destruct y; [now apply Hne | discriminate].
Qed.

Lemma clean_strips (s : string) :
  clean s -> Py.lstrip s = s /\ Py.rstrip s = s.
Proof.
  intros [_ Hs]. unfold Py.strip in Hs. split.
  - rewrite <- Hs at 1. rewrite lstrip_idem. exact Hs.
  - rewrite <- Hs at 1. rewrite rstrip_lstrip, rstrip_idem. exact Hs.
Qed.

Lemma clean_append (a x b : string) :
  clean a -> clean b -> clean (a +:+ x +:+ b).
Proof.
  intros Ha Hb.
  destruct (clean_strips a Ha) as [Hla _]. destruct (clean_strips b Hb) as [_ Hrb].
  destruct Ha as [Hna _]. destruct Hb as [Hnb _]. split.
  - destruct a; [congruence | discriminate].
  - unfold Py.strip. rewrite <- append_assoc.
    rewrite (rstrip_append _ b Hrb Hnb), append_assoc.
    now apply lstrip_append.
Qed.

Lemma clean_strip (t : string) : Py.strip t <> "" -> clean (Py.strip t).
Proof. intros H. split; [exact H | apply strip_idem]. Qed.

Lemma clean_join (a : string) (rest : list string) :
  Forall clean (a :: rest) -> clean (join_space (a :: rest)).
Proof.
  revert a. induction rest as [|b rest IH]; intros a Hl.
  - apply Forall_cons in Hl as [Ha _]. cbn. now rewrite append_empty_r.
  - apply Forall_cons in Hl as [Ha Hl]. specialize (IH b Hl).
    change (join_space (a :: b :: rest))
      with (a +:+ " " +:+ join_space (b :: rest)).
    now apply clean_append.
Qed.

(** What [absorb] keeps holds of every merged block. *)
Lemma merge_from_Forall (P : Block -> Prop) (current : Block)
    (blocks : list Block) :
  (forall c b, P c -> P b -> P (absorb c b)) ->
  P current -> Forall P blocks -> Forall P (merge_from current blocks).
Proof.
  intros Habs. revert current.
  induction blocks as [|b rest IH]; intros current Hc Hl; simpl.
  - now repeat constructor.
  - apply Forall_cons in Hl as [Hb Hl].
    destruct (same_page_style b current).
    + apply IH; [now apply Habs | exact Hl].
    + constructor; [exact Hc | now apply IH].
Qed.

Lemma merge_consecutive_blocks_from (first : Block) (rest : list Block) :
  merge_consecutive_blocks (first :: rest) = merge_from first rest.
Proof. simpl. apply merge_loop_from. Qed.

Lemma join_tail (x : string) (l : list string) :
  foldr (fun t acc => " " +:+ t +:+ acc) "" (x :: l)
  = " " +:+ join_space (x :: l).
Proof. reflexivity. Qed.

Lemma merge_from_text (current : Block) (blocks : list Block) :
  join_space (map b_text (merge_from current blocks))
  = join_space (b_text current :: map b_text blocks).
Proof.
  revert current. induction blocks as [|b rest IH]; intros current; simpl map.
  - reflexivity.
  - cbn [merge_from]. destruct (same_page_style b current).
    + rewrite IH. cbn [absorb b_text join_space foldr].
      now rewrite !append_assoc.
    + destruct (merge_from_head b rest) as (h & t & Heq & _).
      specialize (IH b). rewrite Heq in *. cbn [map] in *.
      cbn [join_space]. rewrite !join_tail, IH. reflexivity.
Qed.

(** X15: merging blocks loses and reorders no text: the texts of the merged
    blocks, joined by spaces, are the texts of the given blocks joined by
    spaces. *)
Theorem merge_consecutive_blocks_text (blocks : list Block) :
  join_space (map b_text (merge_consecutive_blocks blocks))
  = join_space (map b_text blocks).
Proof.
  destruct blocks as [|first rest]; [reflexivity|].
  rewrite merge_consecutive_blocks_from. apply merge_from_text.
Qed.

Lemma merge_from_length (current : Block) (blocks : list Block) :
  (1 <= length (merge_from current blocks) <= S (length blocks))%nat.
Proof.
  revert current. induction blocks as [|b rest IH]; intros current; simpl.
  - lia.
  - destruct (same_page_style b current).
    + specialize (IH (absorb current b)). lia.
    + specialize (IH b). simpl. lia.
Qed.

Lemma merge_from_origin (current : Block) (blocks : list Block) (o : Block) :
  o ∈ merge_from current blocks ->
  exists b, b ∈ current :: blocks
    /\ b_page o = b_page b /\ b_font o = b_font b /\ b_size o = b_size b
    /\ b_flags o = b_flags b /\ b_page_height o = b_page_height b
    /\ b_page_width o = b_page_width b.
Proof.
  revert current. induction blocks as [|b rest IH]; intros current Ho;
    simpl in Ho.
  - apply list_elem_of_singleton in Ho as ->. exists current.
    split; [constructor | tauto].
  - destruct (same_page_style b current).
    + destruct (IH _ Ho) as (x & Hx & H).
      apply elem_of_cons in Hx as [-> | Hx].
      * exists current. split; [constructor | exact H].
      * exists x. split; [now do 2 right | exact H].
    + apply elem_of_cons in Ho as [-> | Ho].
      * exists current. split; [constructor | tauto].
      * destruct (IH _ Ho) as (x & Hx & H). exists x.
        split; [now right | exact H].
Qed.

(** X16: the merger returns no block for no block and otherwise between one
    block and as many as it was given; every block it returns has the page,
    font, size, flags and page dimensions of a block it was given. *)
Theorem merge_consecutive_blocks_count (blocks : list Block) (o : Block) :
  (merge_consecutive_blocks blocks = [] <-> blocks = [])
  /\ (length (merge_consecutive_blocks blocks) <= length blocks)%nat
  /\ (o ∈ merge_consecutive_blocks blocks ->
      exists b, b ∈ blocks
        /\ b_page o = b_page b /\ b_font o = b_font b /\ b_size o = b_size b
        /\ b_flags o = b_flags b /\ b_page_height o = b_page_height b
        /\ b_page_width o = b_page_width b).
Proof.
  destruct blocks as [|first rest].
  - split; [tauto | split; [simpl; lia|]].
    intros H. now apply elem_of_nil in H.
  - rewrite merge_consecutive_blocks_from.
    pose proof (merge_from_length first rest) as Hl.
    split; [|split; [simpl; lia | apply merge_from_origin]].
    split; [|discriminate]. intros H. rewrite H in Hl. simpl in Hl. lia.
Qed.

End ParseFacts.

Section ParsePdfFacts.

Lemma absorb_page_block (p : nat) (height width : Q) (c b : Block) :
  page_block p height width c -> page_block p height width b ->
  page_block p height width (absorb c b).
Proof.
  intros (H1 & H2 & H3 & H4) (_ & _ & _ & H4').
  repeat split; try assumption; now apply clean_append.
Qed.

Lemma merge_line_acc (page_num : nat) (height width : Q)
    (page_blocks : list Block) (spans : list Span) :
  merge_line page_num height width page_blocks spans
  = page_blocks ++ merge_line page_num height width [] spans.
Proof. exact (span_loop_acc page_num height width spans page_blocks None). Qed.

Lemma kept_clean (s : Span) : kept s = true -> clean (Py.strip (s_text s)).
Proof.
  unfold kept. rewrite negb_true_iff, String.eqb_neq. apply clean_strip.
Qed.

Lemma segment_block_page (page_num : nat) (height width : Q)
    (seg : Span * list Span) :
  Forall (fun s => kept s = true) (segment_spans seg) ->
  page_block page_num height width (segment_block page_num height width seg).
Proof.
  intros Hk. split; [reflexivity | split; [reflexivity | split; [reflexivity|]]].
  destruct seg as [hd tl]. unfold segment_block, segment_spans in *.
  cbn [b_text fst snd map] in *. apply clean_join.
  change (Py.strip (s_text hd) :: map (fun s => Py.strip (s_text s)) tl)
    with (map (fun s => Py.strip (s_text s)) (hd :: tl)).
  apply Forall_fmap. eapply Forall_impl; [exact Hk|]. apply kept_clean.
Qed.

Lemma merge_line_page (page_num : nat) (height width : Q)
    (page_blocks : list Block) (spans : list Span) :
  Forall (page_block page_num height width) page_blocks ->
  Forall (page_block page_num height width)
         (merge_line page_num height width page_blocks spans).
Proof.
  intros Hp. rewrite merge_line_acc. apply Forall_app. split; [exact Hp|].
  destruct (merge_line_segments page_num height width spans)
    as (segs & -> & Hc & _).
  apply Forall_fmap, Forall_forall. intros seg Hseg.
  apply segment_block_page, Forall_forall. intros s Hs.
  assert (Hin : s ∈ List.filter kept spans).
  { rewrite <- Hc. apply list_elem_of_In, in_concat.
    exists (segment_spans seg). split; [|now apply list_elem_of_In].
    apply in_map. now apply list_elem_of_In. }
  now apply list_elem_of_In, filter_In in Hin as [_ Hk].
Qed.

Lemma page_blocks_page (page_num : nat) (page : Page) :
  Forall (page_block page_num (pg_height page) (pg_width page))
    (fold_left (merge_raw_block page_num (pg_height page) (pg_width page))
               (pg_blocks page) []).
Proof.
  assert (Hgen : forall raws acc,
    Forall (page_block page_num (pg_height page) (pg_width page)) acc ->
    Forall (page_block page_num (pg_height page) (pg_width page))
      (fold_left (merge_raw_block page_num (pg_height page) (pg_width page))
                 raws acc)).
  { induction raws as [|raw raws IH]; intros acc Hacc; simpl; [exact Hacc|].
    apply IH. unfold merge_raw_block.
    destruct (negb (rb_type raw =? 0)%Z); [exact Hacc|].
    revert acc Hacc. induction (rb_lines raw) as [|line lines IHl];
      intros acc Hacc; simpl; [exact Hacc|].
    apply IHl. now apply merge_line_page. }
  apply Hgen. constructor.
Qed.

Lemma top_edge_lt_asym (a b : Block) :
  top_edge_lt a b = true -> top_edge_lt b a = false.
Proof. unfold top_edge_lt. apply size_order_asym. Qed.

Lemma top_edge_le_trans (a b c : Block) :
  top_edge_lt b a = false -> top_edge_lt c b = false -> top_edge_lt c a = false.
Proof.
  unfold top_edge_lt. rewrite !Qltb_false_iff. intros H1 H2.
  now apply (Qle_trans _ (by0 (b_bbox b))).
Qed.

Lemma absorb_top (c b : Block) :
  top_le c b -> by0 (b_bbox (absorb c b)) = by0 (b_bbox c).
Proof.
  unfold top_le. intros H. cbn. apply Qltb_false_iff in H. now rewrite H.
Qed.

Lemma merge_from_sorted (current : Block) (blocks : list Block) :
  StronglySorted top_le (current :: blocks) ->
  StronglySorted top_le (merge_from current blocks)
  /\ Forall (top_le current) (merge_from current blocks).
Proof.
  revert current. induction blocks as [|b rest IH]; intros current Hs; simpl.
  - split; repeat constructor. unfold top_le. apply Qle_refl.
  - apply StronglySorted_inv in Hs as [Hs Hc].
    apply Forall_cons in Hc as [Hcb Hc].
    destruct (same_page_style b current).
    + assert (Htop := absorb_top current b Hcb).
      destruct (IH (absorb current b)) as [H1 H2].
      { apply StronglySorted_inv in Hs as [Hs _].
        constructor; [exact Hs|].
        eapply Forall_impl; [exact Hc|]. unfold top_le. now rewrite Htop. }
      split; [exact H1|].
      eapply Forall_impl; [exact H2|]. unfold top_le. now rewrite Htop.
    + destruct (IH b Hs) as [H1 H2].
      assert (H3 : Forall (top_le current) (merge_from b rest)).
      { eapply Forall_impl; [exact H2|]. unfold top_le in *. intros x Hx.
        now apply (Qle_trans _ (by0 (b_bbox b))). }
      split; [now constructor|].
      constructor; [|exact H3]. unfold top_le. apply Qle_refl.
Qed.

Lemma StronglySorted_weaken {A : Type} (R1 R2 : A -> A -> Prop) (l : list A) :
  (forall a b, R1 a b -> R2 a b) -> StronglySorted R1 l -> StronglySorted R2 l.
Proof.
  intros HR. induction 1 as [|x l _ IH Hx]; constructor; [exact IH|].
  eapply Forall_impl; [exact Hx | apply HR].
Qed.

Lemma parse_page_spec (page_num : nat) (page : Page) :
  Forall (page_block page_num (pg_height page) (pg_width page))
         (parse_page page_num page)
  /\ StronglySorted top_le (parse_page page_num page).
Proof.
  unfold parse_page.
  set (page_blocks := fold_left _ (pg_blocks page) []).
  assert (Hp : Forall (page_block page_num (pg_height page) (pg_width page))
                 (Py.sorted top_edge_lt page_blocks)).
  { rewrite sorted_perm. apply page_blocks_page. }
  pose proof (sorted_StronglySorted top_edge_lt top_edge_lt_asym
                top_edge_le_trans page_blocks) as Hs.
  assert (Hs' : StronglySorted top_le (Py.sorted top_edge_lt page_blocks)).
  { eapply StronglySorted_weaken; [|exact Hs].
    intros x y Hy. now apply Qltb_false_iff in Hy. }
  destruct (Py.sorted top_edge_lt page_blocks) as [|first rest];
    [simpl; split; [exact Hp | exact Hs']|].
  rewrite merge_consecutive_blocks_from.
  apply Forall_cons in Hp as [Hf Hr]. split.
  - apply merge_from_Forall; [apply absorb_page_block | exact Hf | exact Hr].
  - now apply merge_from_sorted.
Qed.

Lemma parse_pages_acc (page_num : nat) (all_blocks : list Block)
    (pages : list Page) :
  parse_pages page_num all_blocks pages
  = all_blocks ++ parse_pages page_num [] pages.
Proof.
  revert page_num all_blocks.
  induction pages as [|page rest IH]; intros page_num all_blocks; simpl.
  - now rewrite app_nil_r.
  - rewrite IH, (IH _ (parse_page page_num page)). now rewrite app_assoc.
Qed.

Lemma parse_pages_elem (page_num : nat) (pages : list Page) (b : Block) :
  b ∈ parse_pages page_num [] pages ->
  exists k page, pages !! k = Some page
    /\ page_block (page_num + k) (pg_height page) (pg_width page) b.
Proof.
  revert page_num. induction pages as [|page rest IH]; intros page_num Hb;
    simpl in Hb.
  - now apply elem_of_nil in Hb.
  - rewrite parse_pages_acc in Hb. apply elem_of_app in Hb as [Hb | Hb].
    + exists 0%nat, page. split; [reflexivity|]. rewrite Nat.add_0_r.
      destruct (parse_page_spec page_num page) as [Hp _].
      rewrite Forall_forall in Hp. now apply Hp.
    + destruct (IH (S page_num) Hb) as (k & pg & Hk & Hpb).
      exists (S k), pg. split; [exact Hk|].
      now replace (page_num + S k)%nat with (S page_num + k)%nat by lia.
Qed.

(** X17: every block that [parse_pdf] returns lies on a page of the document
    and carries that page's height and width; its text is not empty and has
    no whitespace at either end. *)
Theorem parse_pdf_blocks (doc : list Page) (b : Block) :
  b ∈ parse_pdf doc ->
  exists page, doc !! b_page b = Some page
    /\ b_page_height b = pg_height page /\ b_page_width b = pg_width page
    /\ b_text b <> "" /\ Py.strip (b_text b) = b_text b.
Proof.
  intros Hb. destruct (parse_pages_elem 0 doc b Hb)
    as (k & page & Hk & Hp & Hh & Hw & Hne & Hs).
  exists page. simpl in Hp. subst k. tauto.
Qed.

Lemma same_page_reading (p : nat) (height width : Q) (l : list Block) :
  Forall (page_block p height width) l -> StronglySorted top_le l ->
  StronglySorted reading_le l.
Proof.
  intros Hp. induction 1 as [|x l _ IH Hx]; constructor.
  - apply IH. now apply Forall_cons in Hp as [_ Hp].
  - apply Forall_cons in Hp as [Hxp Hp].
    rewrite Forall_forall in Hx, Hp. apply Forall_forall. intros y Hy.
    right. split; [|now apply Hx].
    destruct Hxp as [-> _]. now destruct (Hp y Hy) as [-> _].
Qed.

Lemma parse_pages_sorted (page_num : nat) (pages : list Page) :
  StronglySorted reading_le (parse_pages page_num [] pages).
Proof.
  revert page_num. induction pages as [|page rest IH]; intros page_num; simpl.
  - constructor.
  - rewrite parse_pages_acc.
    destruct (parse_page_spec page_num page) as [Hp Hs].
    apply StronglySorted_app_2.
    + intros x1 x2 H1 H2. left.
      rewrite Forall_forall in Hp. destruct (Hp x1 H1) as [-> _].
      destruct (parse_pages_elem (S page_num) rest x2 H2)
        as (k & pg & _ & -> & _). lia.
    + now apply (same_page_reading _ _ _ _ Hp).
    + apply IH.
Qed.

(** X18: [parse_pdf] returns the blocks in reading order: sorted by page and,
    on a page, by top edge. *)
Theorem parse_pdf_reading_order (doc : list Page) :
  StronglySorted reading_le (parse_pdf doc).
Proof. apply parse_pages_sorted. Qed.

End ParsePdfFacts.

Lemma parse_pdf_blocks_witness :
  mkBlock "Report Title" "Helvetica" 24 0 (mkBBox 72 100 300 124) 0 800 600
    ∈ parse_pdf report_pages
  /\ exists page,
       report_pages
         !! b_page (mkBlock "Report Title" "Helvetica" 24 0
                      (mkBBox 72 100 300 124) 0 800 600) = Some page
       /\ b_page_height (mkBlock "Report Title" "Helvetica" 24 0
                           (mkBBox 72 100 300 124) 0 800 600) = pg_height page
       /\ b_page_width (mkBlock "Report Title" "Helvetica" 24 0
                          (mkBBox 72 100 300 124) 0 800 600) = pg_width page
       /\ b_text (mkBlock "Report Title" "Helvetica" 24 0
                     (mkBBox 72 100 300 124) 0 800 600) <> ""
       /\ Py.strip (b_text (mkBlock "Report Title" "Helvetica" 24 0
                               (mkBBox 72 100 300 124) 0 800 600))
          = b_text (mkBlock "Report Title" "Helvetica" 24 0
                      (mkBBox 72 100 300 124) 0 800 600).
Proof.
  assert (H : mkBlock "Report Title" "Helvetica" 24 0 (mkBBox 72 100 300 124)
                0 800 600 ∈ parse_pdf report_pages).
  { apply list_elem_of_lookup. exists 0%nat. vm_compute. reflexivity. }
  split; [exact H|].
  exact (parse_pdf_blocks report_pages _ H).
Defined.

(** ** [main] and the remaining helpers: further properties *)

Section MainFacts.

Variable crop_and_ocr : nat -> BBox -> string.

(** X19: every entry of the outline that [main] writes has a page number
    between 1 and the number of pages, a non-empty text, and a level label
    that reads as a number of at least 1. *)
Theorem main_outline_entries (doc : list Page) (out : Output)
    (e : OutlineEntry) :
  main crop_and_ocr doc = Some out -> e ∈ o_outline out ->
  (1 <= e_page e <= length doc)%nat
  /\ e_text e <> ""
  /\ exists n, heading_level_number (e_level e) = Some n /\ (1 <= n)%Z.
Proof.
  unfold main, main_from. intros Hm He.
  destruct (extract_title crop_and_ocr (parse_pdf doc)) as [t o].
  destruct (remove_headers_footers (parse_pdf doc) 0.1) as [hs fs].
  destruct (extract_headings crop_and_ocr _ t) as [headings|] eqn:Eh;
    [|discriminate].
  simpl in Hm. injection Hm as <-. cbn [o_outline] in He.
  apply list_elem_of_fmap in He as (h & -> & Hh).
  destruct (extract_headings_elem crop_and_ocr _ t headings h Eh Hh)
    as (c & Hc & ->).
  destruct (heading_candidates_elem _ t c Hc) as (i & Hi & _).
  assert (Hb : c ∈ parse_pdf doc).
  { eapply elem_of_sublist; [|apply filter_blocks_sublist_from].
    apply list_elem_of_lookup. exists i. exact Hi. }
  destruct (parse_pages_elem 0 doc c Hb) as (k & page & Hk & Hp & _ & _ & Hne & _).
  apply lookup_lt_Some in Hk. simpl in Hp.
  unfold outline_entry. cbn [e_page e_text e_level].
  split; [|split].
  - cbn [make_heading h_page]. lia.
  - cbn [make_heading h_ocr_text h_text]. unfold or_else.
    destruct (crop_and_ocr (b_page c) (b_bbox c)); [exact Hne | discriminate].
  - destruct (candidate_level crop_and_ocr _ c Hc) as (r & s & _ & _ & ->).
    change ("H" +:+ Py.str_of_nat (r + 1)) with (String "H" (Py.str_of_nat (r + 1))).
    rewrite heading_level_number_H, int_str_of_nat.
    exists (Z.of_nat (r + 1)). split; [reflexivity | lia].
Qed.

(** X20: where no block that [test.py] takes as a title candidate has a
    blacklisted word, the title of [test.py] is the trimmed title text of
    [final.py]. *)
Theorem extract_title_versions (blocks : list Block) :
  (forall b, b ∈ blocks -> TestPy.title_candidate b = true ->
     title_candidate b = true) ->
  TestPy.extract_title blocks = Py.strip (extract_title crop_and_ocr blocks).1.
Proof.
  intros H.
  assert (Hf : List.filter TestPy.title_candidate blocks
               = List.filter title_candidate blocks).
  { induction blocks as [|b rest IH]; [reflexivity|]. simpl.
    rewrite IH by (intros c Hc; apply H; now right).
    specialize (H b ltac:(left)).
    destruct (TestPy.title_candidate b) eqn:E1.
    - now rewrite H.
    - unfold title_candidate. unfold TestPy.title_candidate in E1.
      now rewrite E1. }
  unfold TestPy.extract_title, extract_title. rewrite Hf.
  destruct (List.filter title_candidate blocks); [reflexivity|].
  now destruct (Py.sorted title_key_lt _).
Qed.

(** X21: on pages of non-negative height a wider margin marks every position
    that a narrower margin marks (as header or as footer). *)
Theorem remove_headers_footers_monotone (blocks : list Block) (m1 m2 : Q)
    (i : nat) :
  (forall b, b ∈ blocks -> 0 <= b_page_height b) -> m1 <= m2 ->
  i ∈ (remove_headers_footers blocks m1).1 ∪ (remove_headers_footers blocks m1).2 ->
  i ∈ (remove_headers_footers blocks m2).1 ∪ (remove_headers_footers blocks m2).2.
Proof.
  intros Hpos Hm.
  destruct (headers_footers_loop_spec m1 blocks 0 ∅ ∅ i) as [Hh1 Hf1].
  destruct (headers_footers_loop_spec m2 blocks 0 ∅ ∅ i) as [Hh2 Hf2].
  unfold remove_headers_footers. rewrite !elem_of_union, Hh1, Hf1, Hh2, Hf2.
  assert (Hmark : forall j b, blocks !! j = Some b -> i = (0 + j)%nat ->
            header_test m1 b = true \/ footer_test m1 b = true ->
            (exists j b, blocks !! j = Some b /\ i = (0 + j)%nat
               /\ header_test m2 b = true)
            \/ (exists j b, blocks !! j = Some b /\ i = (0 + j)%nat
               /\ header_test m2 b = false /\ footer_test m2 b = true)).
  { intros j b Hj Hi Ht.
    assert (Hb : 0 <= b_page_height b)
      by (apply Hpos, list_elem_of_lookup; now exists j).
    assert (Hmul : b_page_height b * m1 <= b_page_height b * m2).
    { rewrite !(Qmult_comm (b_page_height b)).
      now apply Qmult_le_compat_r. }
    destruct (header_test m2 b) eqn:E2; [left; now exists j, b | right].
    exists j, b. repeat split; try assumption.
    unfold header_test, footer_test in *.
    apply not_true_iff_false in E2. rewrite Qle_bool_iff in E2.
    rewrite Qle_bool_iff. destruct Ht as [Ht | Ht]; apply Qle_bool_iff in Ht.
    - exfalso. apply E2. now apply (Qle_trans _ (b_page_height b * m1)).
    - apply (Qle_trans _ (b_page_height b * (1 - m1))); [|exact Ht].
      rewrite !(Qmult_comm (b_page_height b)).
      apply Qmult_le_compat_r; [clear -Hm; lra | exact Hb]. }
  intros [[H | (j & b & Hj & Hi & Ht)] | [H | (j & b & Hj & Hi & _ & Ht)]];
    try (now apply elem_of_empty in H).
  - destruct (Hmark j b Hj Hi (or_introl Ht)) as [Hr | Hr]; [left | right];
      now right.
  - destruct (Hmark j b Hj Hi (or_intror Ht)) as [Hr | Hr]; [left | right];
      now right.
Qed.


End MainFacts.

Lemma main_outline_entries_witness :
  main no_ocr report_pages
  = Some {| o_title := "Report Title";
            o_outline := [mkEntry "H1" "1. Introduction" 2] |}
  /\ mkEntry "H1" "1. Introduction" 2
     ∈ o_outline {| o_title := "Report Title";
                    o_outline := [mkEntry "H1" "1. Introduction" 2] |}
  /\ (1 <= e_page (mkEntry "H1" "1. Introduction" 2) <= length report_pages)%nat
  /\ e_text (mkEntry "H1" "1. Introduction" 2) <> ""
  /\ exists n, heading_level_number (e_level (mkEntry "H1" "1. Introduction" 2))
               = Some n /\ (1 <= n)%Z.
Proof.
  assert (Hm : main no_ocr report_pages
               = Some {| o_title := "Report Title";
                         o_outline := [mkEntry "H1" "1. Introduction" 2] |})
    by (vm_compute; reflexivity).
  assert (He : mkEntry "H1" "1. Introduction" 2
               ∈ o_outline {| o_title := "Report Title";
                              o_outline := [mkEntry "H1" "1. Introduction" 2] |})
    by constructor.
  split; [exact Hm | split; [exact He|]].
  exact (main_outline_entries no_ocr report_pages _ _ Hm He).
Defined.

Lemma extract_title_versions_witness :
  (forall b, b ∈ [sample_intro; sample_block " Report Title " 24 0 100] ->
     TestPy.title_candidate b = true -> title_candidate b = true)
  /\ TestPy.extract_title [sample_intro; sample_block " Report Title " 24 0 100]
     = Py.strip (extract_title no_ocr
                   [sample_intro; sample_block " Report Title " 24 0 100]).1.
Proof.
  assert (H : forall b,
            b ∈ [sample_intro; sample_block " Report Title " 24 0 100] ->
            TestPy.title_candidate b = true -> title_candidate b = true).
  { intros b Hb _.
    repeat (apply elem_of_cons in Hb as [-> | Hb]; [reflexivity|]).
    now apply elem_of_nil in Hb. }
  split; [exact H|].
  exact (extract_title_versions no_ocr _ H).
Defined.

Lemma remove_headers_footers_monotone_witness :
  (forall b, b ∈ [band_block 10 80] -> 0 <= b_page_height b)
  /\ 0.1 <= 0.2
  /\ 0%nat ∈ (remove_headers_footers [band_block 10 80] 0.2).1
           ∪ (remove_headers_footers [band_block 10 80] 0.2).2.
Proof.
  assert (H1 : forall b, b ∈ [band_block 10 80] -> 0 <= b_page_height b).
  { intros b Hb. apply list_elem_of_singleton in Hb as ->. discriminate. }
  assert (H2 : 0.1 <= 0.2) by discriminate.
  split; [exact H1 | split; [exact H2|]].
  apply (remove_headers_footers_monotone [band_block 10 80] 0.1 0.2 0 H1 H2).
  apply (bool_decide_unpack _). vm_compute. exact I.
Defined.


(** ** The outline as a whole: further properties *)

Section OutlineFacts.

Variable crop_and_ocr : nat -> BBox -> string.

Lemma cluster_sizes_sound (candidates : list Block) (s : Q) :
  s ∈ cluster_sizes candidates -> exists c, c ∈ candidates /\ b_size c = s.
Proof.
  unfold cluster_sizes. rewrite sorted_perm. intros Hs.
  apply set_from_sound in Hs as [Hs | Hs]; [now apply elem_of_nil in Hs|].
  apply list_elem_of_fmap in Hs as (c & -> & Hc). now exists c.
Qed.

(** Two ranks that hold equal sizes are one rank. *)
Lemma cluster_sizes_rank_inj (candidates : list Block) (k1 k2 : nat)
    (s1 s2 : Q) :
  cluster_sizes candidates !! k1 = Some s1 ->
  cluster_sizes candidates !! k2 = Some s2 -> s1 == s2 -> k1 = k2.
Proof.
  intros H1 H2 Heq.
  pose proof (cluster_sizes_descending candidates) as Hs.
  destruct (Nat.lt_trichotomy k1 k2) as [Hk | [Hk | Hk]]; [|exact Hk|]; exfalso.
  - pose proof (StronglySorted_lookup_lt _ _ k1 k2 s1 s2 Hs H1 H2 Hk) as Hd.
    simpl in Hd. clear -Hd Heq. lra.
  - pose proof (StronglySorted_lookup_lt _ _ k2 k1 s2 s1 Hs H2 H1 Hk) as Hd.
    simpl in Hd. clear -Hd Heq. lra.
Qed.

(** X23: clustering skips no level: if a candidate gets the label of rank
    [k], every lower rank is the label of some candidate too, so the labels
    in use are H1 to Hn without a gap. *)
Theorem cluster_levels_contiguous (candidates : list Block) (c : Block)
    (k j : nat) :
  c ∈ candidates ->
  h_level (make_heading crop_and_ocr (cluster_font_sizes candidates) c)
  = "H" +:+ Py.str_of_nat (k + 1) ->
  (j <= k)%nat ->
  exists c', c' ∈ candidates
    /\ h_level (make_heading crop_and_ocr (cluster_font_sizes candidates) c')
       = "H" +:+ Py.str_of_nat (j + 1).
Proof.
  intros Hc Hlevel Hj.
  destruct (candidate_level crop_and_ocr candidates c Hc)
    as (k0 & s & Hk0 & _ & Hl0).
  assert (k0 = k) as ->.
  { rewrite Hl0 in Hlevel.
    assert (Hn : heading_level_number ("H" +:+ Py.str_of_nat (k0 + 1))
                 = heading_level_number ("H" +:+ Py.str_of_nat (k + 1)))
      by now rewrite Hlevel.
    change ("H" +:+ Py.str_of_nat (k0 + 1))
      with (String "H" (Py.str_of_nat (k0 + 1))) in Hn.
    change ("H" +:+ Py.str_of_nat (k + 1))
      with (String "H" (Py.str_of_nat (k + 1))) in Hn.
    rewrite !heading_level_number_H, !int_str_of_nat in Hn.
    injection Hn as Hn. lia. }
  destruct (lookup_lt_is_Some_2 (cluster_sizes candidates) j) as [sj Hsj].
  { apply lookup_lt_Some in Hk0. lia. }
  destruct (cluster_sizes_sound candidates sj) as (c' & Hc' & Hsize).
  { apply list_elem_of_lookup. now exists j. }
  exists c'. split; [exact Hc'|].
  destruct (candidate_level crop_and_ocr candidates c' Hc')
    as (k' & s' & Hk' & Hs' & ->).
  assert (k' = j) as ->; [|reflexivity].
  apply (cluster_sizes_rank_inj candidates k' j s' sj Hk' Hsj).
  now rewrite Hs', Hsize.
Qed.

Lemma hierarchy_loop_first (h : Heading) (rest : list Heading) :
  exists kept, (hierarchy_loop [] None (h :: rest)).1 = h :: kept.
Proof.
  cbn [hierarchy_loop].
  destruct (heading_level_number (h_level h));
    rewrite (hierarchy_loop_acc ([] ++ [h])); cbn; eauto.
Qed.

(** X24: the outline is empty only if no block is a heading candidate: the
    first heading in sort order is always kept by the hierarchy pass. *)
Theorem extract_headings_empty_iff (blocks : list Block) (title_text : string)
    (headings : list Heading) :
  extract_headings crop_and_ocr blocks title_text = Some headings ->
  (headings = [] <-> heading_candidates blocks title_text = []).
Proof.
  unfold extract_headings. intros He.
  destruct blocks as [|b0 rest] eqn:Eb.
  - injection He as <-. split; reflexivity.
  - rewrite <- Eb in *. clear Eb.
    destruct (heading_candidates blocks title_text) as [|c cs] eqn:Ec.
    + injection He as <-. split; reflexivity.
    + destruct (ordered_headings crop_and_ocr (c :: cs)) as [sorted|] eqn:Eo;
        [|discriminate].
      simpl in He. injection He as <-.
      split; [|discriminate]. intros Hnil. exfalso.
      apply sort_headings_perm in Eo.
      destruct sorted as [|h t].
      * apply Permutation_nil in Eo. discriminate.
      * unfold hierarchy_pass in Hnil.
        destruct (hierarchy_loop_first h t) as (kept & Hk).
        rewrite Hk in Hnil. discriminate.
Qed.

Lemma hierarchy_loop_top (last : option Z) (headings : list Heading)
    (h : Heading) :
  match last with Some p => (1 <= p)%Z | None => True end ->
  Forall (fun x => exists n, heading_level_number (h_level x) = Some n
                             /\ (1 <= n)%Z) headings ->
  h ∈ headings -> heading_level_number (h_level h) = Some 1%Z ->
  h ∈ (hierarchy_loop [] last headings).1.
Proof.
  revert last. induction headings as [|x rest IH]; intros last Hlast Hall Hin H1.
  - now apply elem_of_nil in Hin.
  - apply Forall_cons in Hall as [(n & Hn & Hge) Hall].
    cbn [hierarchy_loop]. rewrite Hn.
    apply elem_of_cons in Hin as [<- | Hin].
    + rewrite H1 in Hn. injection Hn as <-.
      assert ((match last with
               | Some last0 => (1 <=? last0 + 1)%Z
               | None => true
               end) = true) as ->.
      { destruct last as [p|]; [apply Z.leb_le; lia | reflexivity]. }
      rewrite (hierarchy_loop_acc ([] ++ [h])). cbn. left.
    + destruct (match last with
                | Some last0 => (n <=? last0 + 1)%Z
                | None => true
                end).
      * rewrite (hierarchy_loop_acc ([] ++ [x])). cbn. right.
        now apply IH.
      * now apply IH.
Qed.

Lemma extract_headings_some_candidate (blocks : list Block)
    (title_text : string) (c : Block) :
  c ∈ heading_candidates blocks title_text ->
  extract_headings crop_and_ocr blocks title_text
  = hierarchy_pass
      <$> ordered_headings crop_and_ocr (heading_candidates blocks title_text).
Proof.
  intros Hc. unfold extract_headings.
  destruct blocks as [|b0 rest]; [now apply elem_of_nil in Hc|].
  destruct (heading_candidates (b0 :: rest) title_text);
    [now apply elem_of_nil in Hc | reflexivity].
Qed.

Lemma top_candidate_level (candidates : list Block) (c : Block) :
  c ∈ candidates -> (forall c', c' ∈ candidates -> b_size c' <= b_size c) ->
  h_level (make_heading crop_and_ocr (cluster_font_sizes candidates) c) = "H1".
Proof.
  intros Hc Hmax.
  destruct (candidate_level crop_and_ocr candidates c Hc)
    as (k & s & Hk & Hs & ->).
  destruct k as [|k]; [reflexivity | exfalso].
  destruct (lookup_lt_is_Some_2 (cluster_sizes candidates) 0) as [s0 Hs0].
  { apply lookup_lt_Some in Hk. lia. }
  pose proof (StronglySorted_lookup_lt _ _ 0 (S k) s0 s
                (cluster_sizes_descending candidates) Hs0 Hk
                ltac:(lia)) as Hd.
  destruct (cluster_sizes_sound candidates s0) as (c0 & Hc0 & Hsz).
  { apply list_elem_of_lookup. now exists 0%nat. }
  specialize (Hmax c0 Hc0). simpl in Hd. rewrite Hsz in Hmax.
  clear -Hd Hs Hmax. lra.
Qed.

(** X25: a candidate of the largest size among the candidates is never
    dropped: its heading, of level H1, is in the outline. *)
Theorem extract_headings_keeps_top (blocks : list Block) (title_text : string)
    (headings : list Heading) (c : Block) :
  extract_headings crop_and_ocr blocks title_text = Some headings ->
  c ∈ heading_candidates blocks title_text ->
  (forall c', c' ∈ heading_candidates blocks title_text ->
     b_size c' <= b_size c) ->
  exists h, h ∈ headings /\ h_level h = "H1"
    /\ h_text h = b_text c /\ h_page h = b_page c.
Proof.
  intros He Hc Hmax.
  rewrite (extract_headings_some_candidate blocks title_text c Hc) in He.
  pose proof (top_candidate_level _ c Hc Hmax) as Hl.
  exists (make_heading crop_and_ocr
            (cluster_font_sizes (heading_candidates blocks title_text)) c).
  split; [|split; [exact Hl | split; reflexivity]].
  destruct (ordered_headings crop_and_ocr _) as [sorted|] eqn:Eo;
    [|discriminate].
  simpl in He. injection He as <-.
  apply sort_headings_perm in Eo. unfold hierarchy_pass.
  apply hierarchy_loop_top; [exact I | | |].
  - rewrite Eo. apply Forall_fmap, Forall_forall. intros x Hx.
    unfold compose.
    destruct (candidate_level crop_and_ocr _ x Hx) as (k & s & _ & _ & Hlx).
    rewrite Hlx.
    change ("H" +:+ Py.str_of_nat (k + 1))
      with (String "H" (Py.str_of_nat (k + 1))).
    rewrite heading_level_number_H, int_str_of_nat.
    exists (Z.of_nat (k + 1)). split; [reflexivity | lia].
  - rewrite Eo. now apply list_elem_of_fmap_2.
  - now rewrite Hl.
Qed.

Lemma hierarchy_loop_consistent_input (last : option Z)
    (headings : list Heading) :
  steps_ok last (numeric_levels headings) ->
  (hierarchy_loop [] last headings).1 = headings.
Proof.
  revert last. induction headings as [|h rest IH]; intros last Hs;
    [reflexivity|].
  cbn [hierarchy_loop]. unfold numeric_levels in Hs. cbn [omap list_omap] in Hs.
  destruct (heading_level_number (h_level h)) as [lvl|] eqn:El.
  - destruct Hs as [Hl Hs].
    assert ((match last with
             | Some last0 => (lvl <=? last0 + 1)%Z
             | None => true
             end) = true) as ->.
    { destruct last as [p|]; [now apply Z.leb_le | reflexivity]. }
    rewrite (hierarchy_loop_acc ([] ++ [h])). cbn. f_equal. now apply IH.
  - rewrite (hierarchy_loop_acc ([] ++ [h])). cbn. f_equal. now apply IH.
Qed.

(** X26: a sequence whose numeric levels never deepen by more than one from
    one to the next passes the hierarchy pass unchanged. *)
Theorem hierarchy_pass_keeps_consistent (headings : list Heading) :
  steps_ok None (numeric_levels headings) ->
  hierarchy_pass headings = headings.
Proof. apply hierarchy_loop_consistent_input. Qed.

End OutlineFacts.

Lemma cluster_levels_contiguous_witness :
  sample_intro ∈ sample_blocks
  /\ h_level (make_heading no_ocr (cluster_font_sizes sample_blocks) sample_intro)
     = "H" +:+ Py.str_of_nat (1 + 1)
  /\ (0 <= 1)%nat
  /\ exists c', c' ∈ sample_blocks
       /\ h_level (make_heading no_ocr (cluster_font_sizes sample_blocks) c')
          = "H" +:+ Py.str_of_nat (0 + 1).
Proof.
  assert (H1 : sample_intro ∈ sample_blocks)
    by (apply list_elem_of_lookup; now exists 2%nat).
  assert (H2 : h_level (make_heading no_ocr (cluster_font_sizes sample_blocks)
                          sample_intro) = "H" +:+ Py.str_of_nat (1 + 1))
    by reflexivity.
  assert (H3 : (0 <= 1)%nat) by lia.
  split; [exact H1 | split; [exact H2 | split; [exact H3|]]].
  exact (cluster_levels_contiguous no_ocr sample_blocks sample_intro 1 0 H1 H2 H3).
Defined.

Lemma extract_headings_empty_iff_witness :
  extract_headings no_ocr sample_blocks "Report Title"
  = Some [mkHeading "H1" "1. Introduction" 1 ""]
  /\ ([mkHeading "H1" "1. Introduction" 1 ""] = [] <->
      heading_candidates sample_blocks "Report Title" = []).
Proof.
  assert (He : extract_headings no_ocr sample_blocks "Report Title"
               = Some [mkHeading "H1" "1. Introduction" 1 ""])
    by (vm_compute; reflexivity).
  split; [exact He|].
  exact (extract_headings_empty_iff no_ocr sample_blocks "Report Title" _ He).
Defined.

Lemma extract_headings_keeps_top_witness :
  extract_headings no_ocr repeated_heading_blocks "Report Title"
  = Some [ mkHeading "H1" "Example" 1 ""; mkHeading "H1" "Example" 1 "";
           mkHeading "H1" "Remarks" 1 "" ]
  /\ sample_block "Remarks" 16 1 300
     ∈ heading_candidates repeated_heading_blocks "Report Title"
  /\ (forall c', c' ∈ heading_candidates repeated_heading_blocks "Report Title" ->
        b_size c' <= b_size (sample_block "Remarks" 16 1 300))
  /\ exists h, h ∈ [ mkHeading "H1" "Example" 1 ""; mkHeading "H1" "Example" 1 "";
                     mkHeading "H1" "Remarks" 1 "" ]
       /\ h_level h = "H1"
       /\ h_text h = b_text (sample_block "Remarks" 16 1 300)
       /\ h_page h = b_page (sample_block "Remarks" 16 1 300).
Proof.
  assert (He : extract_headings no_ocr repeated_heading_blocks "Report Title"
               = Some [ mkHeading "H1" "Example" 1 ""; mkHeading "H1" "Example" 1 "";
                        mkHeading "H1" "Remarks" 1 "" ])
    by (vm_compute; reflexivity).
  assert (Hcands : heading_candidates repeated_heading_blocks "Report Title"
                   = [sample_block "Example" 16 1 100;
                      sample_block "Remarks" 16 1 300;
                      sample_block "Example" 16 1 500])
    by (vm_compute; reflexivity).
  assert (Hc : sample_block "Remarks" 16 1 300
               ∈ heading_candidates repeated_heading_blocks "Report Title")
    by (rewrite Hcands; right; left).
  assert (Hmax : forall c',
            c' ∈ heading_candidates repeated_heading_blocks "Report Title" ->
            b_size c' <= b_size (sample_block "Remarks" 16 1 300)).
  { rewrite Hcands. intros c' Hc'.
    repeat (apply elem_of_cons in Hc' as [-> | Hc']; [discriminate|]).
    now apply elem_of_nil in Hc'. }
  split; [exact He | split; [exact Hc | split; [exact Hmax|]]].
  exact (extract_headings_keeps_top no_ocr repeated_heading_blocks
           "Report Title" _ _ He Hc Hmax).
Defined.

Lemma hierarchy_pass_keeps_consistent_witness :
  steps_ok None
    (numeric_levels [sample_heading "H1"; sample_heading "H2";
                     sample_heading "Hx"; sample_heading "H3";
                     sample_heading "H1"])
  /\ hierarchy_pass [sample_heading "H1"; sample_heading "H2";
                     sample_heading "Hx"; sample_heading "H3";
                     sample_heading "H1"]
     = [sample_heading "H1"; sample_heading "H2"; sample_heading "Hx";
        sample_heading "H3"; sample_heading "H1"].
Proof.
  assert (H : steps_ok None
    (numeric_levels [sample_heading "H1"; sample_heading "H2";
                     sample_heading "Hx"; sample_heading "H3";
                     sample_heading "H1"])).
  { vm_compute. repeat split; discriminate. }
  split; [exact H|].
  exact (hierarchy_pass_keeps_consistent _ H).
Defined.
